(** * Session store and HTTP gateway of the job-agent frontend

    A shallow embedding of
      - [frontend/src/store/auth.ts]    (the zustand store [useAuthStore]), and
      - [frontend/src/services/auth.ts] (the axios instance [api], its two
        interceptors and [authService]),
    followed by the properties of the session protocol.

    The code is asynchronous JavaScript.  It is modelled by explicit state
    passing over a [World] (store, persisted snapshot, server, log of the
    requests put on the wire).  A promise is a computation [M A] that
    returns the new world and an [outcome]: resolved, rejected, or still
    pending when the fuel of the run is used up.

    What is taken from the libraries:
      - zustand: [set] merges its argument into the state; under [persist]
        every [set] writes the partialized state to the storage item as
        JSON, and a process start merges what the item holds over the
        initial state and leaves the item as it is.  The item is held as
        the members that [JSON.parse] finds in the text that
        [JSON.stringify] made: a member whose value is [undefined] is not
        among them;
      - axios: a response resolves when its status is in 200..299 and
        rejects with an error that carries [config] and [response]
        otherwise; a request that fails without a response rejects with an
        error that carries [config] only; the config of the error is the
        one that was sent, and a field added to it ([_retry]) is kept when
        the config is sent again.

    The tasks interleave at network waits only: what another task does to
    the store while a request is on the wire comes with the reply of the
    network ([meanwhile]). *)

From Stdlib Require Import String List ZArith Bool Lia Arith.
From Stdlib Require Import DecimalString.
Import ListNotations.
Open Scope string_scope.

Set Implicit Arguments.

(* ================================================================== *)
(** ** JavaScript values *)

(** The values that travel through the store and the gateway are untyped at
    run time (the service results are [any]).  The numbers are the
    integers that a JavaScript number holds exactly (below 2^53 in
    magnitude); fractions, larger numbers, functions and symbols do not
    occur.  The fields of an object have distinct keys. *)
Module JS.

(** [Number.isSafeInteger] *)
Definition safe_integer (n : Z) : bool := (Z.abs n <? 2 ^ 53)%Z.

#[local] Unset Elimination Schemes.
Inductive value : Type :=
| VUndefined
| VNull
| VBool (b : bool)
| VNum (n : Z) (safe : safe_integer n = true)
| VStr (s : string)
| VArr (items : list value)
| VObj (fields : list (string * value)).
#[local] Set Elimination Schemes.

Arguments VNum n safe : clear implicits.

(** [ToBoolean]: what [if (v)], [!v] and [v || w] test. *)
Definition truthy (v : value) : bool :=
  match v with
  | VUndefined | VNull => false
  | VBool b => b
  | VNum n _ => negb (Z.eqb n 0)
  | VStr s => negb (String.eqb s "")
  | VArr _ | VObj _ => true
  end.

(** [v === undefined || v === null] *)
Definition nullish (v : value) : bool :=
  match v with
  | VUndefined | VNull => true
  | _ => false
  end.

(** The spec's "present": neither [null] nor [undefined]. *)
Definition present (v : value) : bool := negb (nullish v).

(** [a || b] *)
Definition or_else (a b : value) : value := if truthy a then a else b.

Fixpoint lookup (k : string) (fields : list (string * value)) : option value :=
  match fields with
  | [] => None
  | (k', v) :: rest => if String.eqb k k' then Some v else lookup k rest
  end.

(** [v.k] below the guard that [v] is not nullish: own property of an
    object, [undefined] otherwise.  The names read by the source ([data],
    [user], [access_token], [detail]) are no built-in property of a
    primitive or of an array. *)
Definition prop (v : value) (k : string) : value :=
  match v with
  | VObj fields =>
      match lookup k fields with
      | Some x => x
      | None => VUndefined
      end
  | _ => VUndefined
  end.

(** [v.k]: [None] stands for the [TypeError] of reading a property of
    [undefined] or [null]. *)
Definition member (v : value) (k : string) : option value :=
  if nullish v then None else Some (prop v k).

(** [v?.k] *)
Definition opt_member (v : value) (k : string) : value :=
  if nullish v then VUndefined else prop v k.

(** [String(v)], as a template literal [`${v}`] computes it; a safe
    integer prints as its decimal digits. *)
Fixpoint to_string (v : value) : string :=
  match v with
  | VUndefined => "undefined"
  | VNull => "null"
  | VBool true => "true"
  | VBool false => "false"
  | VNum n _ => NilZero.string_of_int (Z.to_int n)
  | VStr s => s
  | VArr items =>
      (fix join (l : list value) : string :=
         match l with
         | [] => ""
         | x :: rest =>
             let sx := if nullish x then "" else to_string x in
             match rest with
             | [] => sx
             | _ :: _ => sx ++ "," ++ join rest
             end
         end) items
  | VObj _ => "[object Object]"
  end.

(** [JSON.parse(JSON.stringify(v))] for a [v] other than [undefined]: a
    member of an object whose value is [undefined] is left out, an
    element of an array that is [undefined] becomes [null], everything
    else comes back as it was. *)
Fixpoint json (v : value) : value :=
  match v with
  | VArr items =>
      VArr (map (fun x => match x with
                          | VUndefined => VNull
                          | _ => json x
                          end) items)
  | VObj fields =>
      VObj ((fix members (l : list (string * value))
               : list (string * value) :=
               match l with
               | [] => []
               | (k, x) :: rest =>
                   match x with
                   | VUndefined => members rest
                   | _ => (k, json x) :: members rest
                   end
               end) fields)
  | _ => v
  end.

(** What the JSON text keeps of a member of the object that is written:
    nothing when its value is [undefined]. *)
Definition json_member (v : value) : option value :=
  match v with
  | VUndefined => None
  | _ => Some (json v)
  end.

(** A value that JSON carries as it is: no [undefined] in it. *)
Fixpoint is_json (v : value) : bool :=
  match v with
  | VUndefined => false
  | VArr items => forallb is_json items
  | VObj fields =>
      (fix all (l : list (string * value)) : bool :=
         match l with
         | [] => true
         | (_, x) :: rest => is_json x && all rest
         end) fields
  | _ => true
  end.

End JS.
Import JS.

(* ================================================================== *)
(** ** The store: [frontend/src/store/auth.ts] *)

(** [interface AuthState], data fields.  [user], [token] and [error] hold
    whatever value was stored; the two flags are only ever written with the
    literals [true] and [false]. *)
Record AuthState : Type := mkAuthState {
  user : value;
  token : value;
  isAuthenticated : bool;
  isLoading : bool;
  error : value
}.

(** The initial state given to [create]. *)
Definition initialState : AuthState :=
  {| user := VNull; token := VNull; isAuthenticated := false;
     isLoading := false; error := VNull |}.

(** The argument of zustand's [set]: an object holding some of the fields. *)
Record Partial : Type := mkPartial {
  p_user : option value;
  p_token : option value;
  p_isAuthenticated : option bool;
  p_isLoading : option bool;
  p_error : option value
}.

Definition pick {A} (o : option A) (d : A) : A :=
  match o with
  | Some a => a
  | None => d
  end.

(** [Object.assign({}, state, partial)]: zustand's shallow merge, which is
    also the default [merge] of [persist] at rehydration. *)
Definition merge (p : Partial) (s : AuthState) : AuthState :=
  {| user := pick (p_user p) (user s);
     token := pick (p_token p) (token s);
     isAuthenticated := pick (p_isAuthenticated p) (isAuthenticated s);
     isLoading := pick (p_isLoading p) (isLoading s);
     error := pick (p_error p) (error s) |}.

(** [partialize]: the part of the state that [persist] writes. *)
Definition partialize (state : AuthState) : Partial :=
  {| p_user := Some (user state);
     p_token := Some (token state);
     p_isAuthenticated := Some (isAuthenticated state);
     p_isLoading := None;
     p_error := None |}.

(** [JSON.parse(JSON.stringify(p))] for the object of an item: the members
    that the storage gives back of the members that were written. *)
Definition through_json (o : option value) : option value :=
  match o with
  | Some v => json_member v
  | None => None
  end.

Definition json_state (p : Partial) : Partial :=
  {| p_user := through_json (p_user p);
     p_token := through_json (p_token p);
     p_isAuthenticated := p_isAuthenticated p;
     p_isLoading := p_isLoading p;
     p_error := through_json (p_error p) |}.

(** What a restart finds in a field that was written with the value [v]:
    its JSON image, or the initial [null] where the member was left out. *)
Definition rehydrated (v : value) : value := pick (json_member v) VNull.

(** The own keys of a partial object, in field order. *)
Definition key_of {A} (k : string) (o : option A) : list string :=
  match o with
  | Some _ => [k]
  | None => []
  end.

Definition keys (p : Partial) : list string :=
  key_of "user" (p_user p) ++ key_of "token" (p_token p) ++
  key_of "isAuthenticated" (p_isAuthenticated p) ++
  key_of "isLoading" (p_isLoading p) ++ key_of "error" (p_error p).

(* ================================================================== *)
(** ** Requests, responses and thrown values *)

(** The headers the code touches: the constant [Content-Type] given to
    [axios.create] and [Authorization] ([None]: the header is not there). *)
Record Headers : Type := mkHeaders {
  ContentType : string;
  Authorization : option string
}.

(** An axios request config, with the field [_retry] that the response
    interceptor adds to it. *)
Record Request : Type := mkRequest {
  method : string;
  url : string;
  headers : Headers;
  body : value;
  _retry : bool
}.

(** An axios response: [status] and the parsed body [data]. *)
Record Response : Type := mkResponse {
  status : Z;
  data : value
}.

(** What a [throw] or a rejected promise carries: an axios error with its
    [config] and, when the server answered, its [response]; or the
    [TypeError] of a property read on [undefined] or [null]. *)
Inductive Thrown : Type :=
| AxiosError (config : Request) (response : option Response)
| TypeError.

(** How far a promise got. *)
Inductive outcome (A : Type) : Type :=
| Resolved (a : A)
| Rejected (e : Thrown)
| Pending.

Arguments Rejected {A} e.
Arguments Pending {A}.

(** [error.response?.status === 401], for a value caught from [api]. *)
Definition is_401 (response : option Response) : bool :=
  match response with
  | Some r => Z.eqb (status r) 401
  | None => false
  end.

(** [error.response?.data?.detail] *)
Definition detail (e : Thrown) : value :=
  match e with
  | AxiosError _ (Some r) => opt_member (data r) "detail"
  | AxiosError _ None => VUndefined
  | TypeError => VUndefined
  end.

(** axios' default [validateStatus]. *)
Definition validateStatus (st : Z) : bool := (200 <=? st)%Z && (st <? 300)%Z.

(** [config.headers.Authorization = h] *)
Definition with_Authorization (h : string) (config : Request) : Request :=
  {| method := method config; url := url config;
     headers := {| ContentType := ContentType (headers config);
                   Authorization := Some h |};
     body := body config; _retry := _retry config |}.

(** [originalRequest._retry = true] *)
Definition mark_retry (config : Request) : Request :=
  {| method := method config; url := url config; headers := headers config;
     body := body config; _retry := true |}.

(** The config that [api.get(url)] and [api.post(url, data)] start from:
    the instance defaults of [axios.create]. *)
Definition new_request (m u : string) (d : value) : Request :=
  {| method := m; url := u;
     headers := {| ContentType := "application/json"; Authorization := None |};
     body := d; _retry := false |}.

(** [`Bearer ${token}`] *)
Definition bearer (tok : value) : string := "Bearer " ++ to_string tok.

(** The config of [api.post('/auth/refresh')]. *)
Definition refresh_request : Request :=
  new_request "POST" "/auth/refresh" VUndefined.

(* ================================================================== *)
(** ** The world *)

(** A synchronous store action that another task (a click handler, a
    bootstrap flow) runs while a request of this task is on the wire. *)
Inductive Action : Type :=
| DoLogout
| DoClearError
| DoSetUser (fields : list (string * value))
| DoSetToken (t : string).

(** What the network gives back for one request: the response, if any
    ([None]: the request failed without one), and what other tasks did to
    the store while this one was suspended. *)
Record Reply : Type := mkReply {
  result : option Response;
  meanwhile : list Action
}.

Section Session.

(** The service behind the base URL, as a state machine. *)
Variable Server : Type.
Variable network : Server -> Request -> Server * Reply.

Record World : Type := mkWorld {
  store : AuthState;                 (* useAuthStore.getState() *)
  localStorage : option Partial;     (* the item 'auth-storage' *)
  server : Server;
  sent : list Request                (* what went on the wire, in order *)
}.

(** An asynchronous computation. *)
Definition M (A : Type) : Type := World -> World * outcome A.

Definition ret {A} (a : A) : M A := fun w => (w, Resolved a).

Definition throw {A} (e : Thrown) : M A := fun w => (w, Rejected e).

Definition bind {A B} (m : M A) (k : A -> M B) : M B :=
  fun w =>
    match m w with
    | (w', Resolved a) => k a w'
    | (w', Rejected e) => (w', Rejected e)
    | (w', Pending) => (w', Pending)
    end.

(** [try { m } catch (e) { h e }] *)
Definition try_catch {A} (m : M A) (h : Thrown -> M A) : M A :=
  fun w =>
    match m w with
    | (w', Resolved a) => (w', Resolved a)
    | (w', Rejected e) => h e w'
    | (w', Pending) => (w', Pending)
    end.

(** A synchronous statement that changes the world. *)
Definition exec (f : World -> World) : M unit := fun w => (f w, Resolved tt).

(** [useAuthStore.getState()] *)
Definition getState : M AuthState := fun w => (w, Resolved (store w)).

(** The value of a synchronous expression whose property reads may raise
    a [TypeError]. *)
Definition eval {A} (o : option A) : M A :=
  match o with
  | Some a => ret a
  | None => throw TypeError
  end.

Notation "x <- m ;; k" := (bind m (fun x => k))
  (at level 61, m at next level, right associativity).
Notation "m ;;; k" := (bind m (fun _ => k))
  (at level 61, right associativity).

(** *** Store actions *)

(** [set(partial)] under [persist]: merge into the state, then write the
    partialized state to the storage item, as JSON. *)
Definition setState (p : Partial) (w : World) : World :=
  let s := merge p (store w) in
  {| store := s; localStorage := Some (json_state (partialize s));
     server := server w; sent := sent w |}.

(** [localStorage.removeItem('auth-storage')] *)
Definition removeItem (w : World) : World :=
  {| store := store w; localStorage := None;
     server := server w; sent := sent w |}.

Definition logout (w : World) : World :=
  removeItem
    (setState {| p_user := Some VNull; p_token := Some VNull;
                 p_isAuthenticated := Some false; p_isLoading := Some false;
                 p_error := Some VNull |} w).

Definition clearError (w : World) : World :=
  setState {| p_user := None; p_token := None; p_isAuthenticated := None;
              p_isLoading := None; p_error := Some VNull |} w.

Definition setUser (u : value) (w : World) : World :=
  setState {| p_user := Some u; p_token := None; p_isAuthenticated := None;
              p_isLoading := None; p_error := None |} w.

Definition setToken (t : value) (w : World) : World :=
  setState {| p_user := None; p_token := Some t;
              p_isAuthenticated := Some true;
              p_isLoading := None; p_error := None |} w.

(** Process start: [persist] rehydrates the store from the storage item,
    merged over the initial state; without an item the store starts from
    the initial state.  The item is of the version that is written, so
    nothing is migrated, and the item is not written at rehydration. *)
Definition restart (w : World) : World :=
  match localStorage w with
  | Some snapshot =>
      {| store := merge snapshot initialState; localStorage := Some snapshot;
         server := server w; sent := sent w |}
  | None =>
      {| store := initialState; localStorage := None;
         server := server w; sent := sent w |}
  end.

Definition perform (a : Action) (w : World) : World :=
  match a with
  | DoLogout => logout w
  | DoClearError => clearError w
  | DoSetUser fields => setUser (VObj fields) w
  | DoSetToken t => setToken (VStr t) w
  end.

(** *** The gateway: [frontend/src/services/auth.ts] *)

(** The request interceptor: [Authorization] is set when the store holds a
    truthy token, and left as it is otherwise. *)
Definition request_interceptor (config : Request) (w : World) : Request :=
  let token := token (store w) in
  if truthy token then with_Authorization (bearer token) config else config.

(** One trip on the wire: the request is logged, the server moves, and the
    actions of the other tasks run before this task resumes. *)
Definition dispatch (config : Request) (w : World) : World * option Response :=
  let (srv, reply) := network (server w) config in
  let w1 := {| store := store w; localStorage := localStorage w;
               server := srv; sent := sent w ++ [config] |} in
  (fold_left (fun w' a => perform a w') (meanwhile reply) w1, result reply).

(** axios' [settle]: a response whose status passes [validateStatus]
    resolves, anything else rejects with an [AxiosError]. *)
Definition settle (config : Request) (r : option Response)
  : Response + Thrown :=
  match r with
  | Some response =>
      if validateStatus (status response) then inl response
      else inr (AxiosError config (Some response))
  | None => inr (AxiosError config None)
  end.

(** The outcome of a request that is on its way for the second time: what
    the wire gives, with no further interception. *)
Definition settled (config : Request) (r : option Response)
  : outcome Response :=
  match settle config r with
  | inl response => Resolved response
  | inr e => Rejected e
  end.

Section Interceptors.

(** The axios instance is called from inside its own interceptor and from
    [authService]; the knot is tied in [api] below. *)
Variable api : Request -> M Response.

(** [authService] *)
Definition authService_login (email password : string) : M value :=
  response <- api (new_request "POST" "/auth/login"
                     (VObj [("email", VStr email);
                            ("password", VStr password)])) ;;
  ret (data response).

Definition authService_register (email password : string) (name : value)
  : M value :=
  response <- api (new_request "POST" "/auth/register"
                     (VObj [("email", VStr email);
                            ("password", VStr password);
                            ("name", name)])) ;;
  ret (data response).

Definition authService_refreshToken : M value :=
  response <- api refresh_request ;;
  ret (data response).

Definition authService_getCurrentUser : M value :=
  response <- api (new_request "GET" "/auth/me" VUndefined) ;;
  ret (data response).

Definition authService_logout : M value :=
  response <- api (new_request "POST" "/auth/logout" VUndefined) ;;
  ret (data response).

(** [response.data.user] and [response.data.access_token], read in this
    order while the argument of [set] is built. *)
Definition read_session (response : value) : option (value * value) :=
  match member response "data" with
  | Some d =>
      match member d "user", member d "access_token" with
      | Some u, Some t => Some (u, t)
      | _, _ => None
      end
  | None => None
  end.

(** [response.data.access_token] *)
Definition read_access_token (response : value) : option value :=
  match member response "data" with
  | Some d => member d "access_token"
  | None => None
  end.

Definition logged_in (u t : value) : Partial :=
  {| p_user := Some u; p_token := Some t; p_isAuthenticated := Some true;
     p_isLoading := Some false; p_error := Some VNull |}.

Definition failed (message : value) : Partial :=
  {| p_user := Some VNull; p_token := Some VNull;
     p_isAuthenticated := Some false; p_isLoading := Some false;
     p_error := Some message |}.

Definition loading : Partial :=
  {| p_user := None; p_token := None; p_isAuthenticated := None;
     p_isLoading := Some true; p_error := Some VNull |}.

Definition token_only (t : value) : Partial :=
  {| p_user := None; p_token := Some t; p_isAuthenticated := None;
     p_isLoading := None; p_error := None |}.

(** [useAuthStore.login] *)
Definition login (email password : string) : M unit :=
  exec (setState loading) ;;;
  try_catch
    (response <- authService_login email password ;;
     ut <- eval (read_session response) ;;
     exec (setState (logged_in (fst ut) (snd ut))))
    (fun error =>
       exec (setState (failed (or_else (detail error)
                                 (VStr "Login failed")))) ;;;
       throw error).

(** [useAuthStore.register] *)
Definition register (email password : string) (name : value) : M unit :=
  exec (setState loading) ;;;
  try_catch
    (response <- authService_register email password name ;;
     ut <- eval (read_session response) ;;
     exec (setState (logged_in (fst ut) (snd ut))))
    (fun error =>
       exec (setState (failed (or_else (detail error)
                                 (VStr "Registration failed")))) ;;;
       throw error).

(** [useAuthStore.refreshToken] *)
Definition refreshToken : M unit :=
  state <- getState ;;
  if negb (truthy (token state)) then ret tt
  else
    try_catch
      (response <- authService_refreshToken ;;
       t <- eval (read_access_token response) ;;
       exec (setState (token_only t)))
      (fun error => exec logout ;;; throw error).

(** The rejection handler of the response interceptor.  The resend is
    returned from inside the [try] without being awaited there, so a
    rejection of the resend does not pass through the [catch]: the
    [try_catch] holds the refresh, and the resend comes after it.  An
    error without [config] and [response] is no 401 and is rejected as it
    came. *)
Definition response_rejected (error : Thrown) : M Response :=
  match error with
  | AxiosError originalRequest response =>
      if is_401 response && negb (_retry originalRequest) then
        let originalRequest := mark_retry originalRequest in
        try_catch refreshToken
          (fun refreshError => exec logout ;;; throw refreshError) ;;;
        state <- getState ;;
        api (with_Authorization (bearer (token state)) originalRequest)
      else throw error
  | TypeError => throw error
  end.

End Interceptors.

(** The axios instance: request interceptor, wire, response interceptor.
    [fuel] bounds the depth of the calls of [api] from inside [api]. *)
Fixpoint api (fuel : nat) (config : Request) : M Response :=
  match fuel with
  | O => fun w => (w, Pending)
  | S fuel' =>
      fun w =>
        let config := request_interceptor config w in
        let (w1, r) := dispatch config w in
        match settle config r with
        | inl response => (w1, Resolved response)
        | inr error => response_rejected (api fuel') error w1
        end
  end.

End Session.

Arguments mkWorld {Server} store localStorage server sent.

(* ================================================================== *)
(** ** Sequences of store operations *)

(** The operations of the store a caller can invoke, and the process
    restart that rehydrates the store from the snapshot. *)
Inductive Op : Type :=
| OpLogin (email password : string)
| OpRegister (email password : string) (name : option string)
| OpLogout
| OpRefreshToken
| OpClearError
| OpSetUser (fields : list (string * value))
| OpSetToken (t : string)
| OpRestart.

(** [name?: string] *)
Definition optional (name : option string) : value :=
  match name with
  | Some n => VStr n
  | None => VUndefined
  end.

Definition run {Server} (network : Server -> Request -> Server * Reply)
    (fuel : nat) (op : Op) : M Server unit :=
  match op with
  | OpLogin email password => login (api network fuel) email password
  | OpRegister email password name =>
      register (api network fuel) email password (optional name)
  | OpLogout => exec (@logout Server)
  | OpRefreshToken => refreshToken (api network fuel)
  | OpClearError => exec (@clearError Server)
  | OpSetUser fields => exec (setUser (VObj fields))
  | OpSetToken t => exec (setToken (VStr t))
  | OpRestart => exec (@restart Server)
  end.

(** The world at the first process start: logged out, nothing persisted,
    nothing sent yet. *)
Definition start {Server} (srv : Server) : World Server :=
  mkWorld initialState None srv [].

(* ================================================================== *)
(** ** Servers used in the examples *)

(** A server that answers from a script, one reply per request, and does
    not answer once the script is used up. *)
Definition scripted (script : list Reply) (_ : Request) : list Reply * Reply :=
  match script with
  | reply :: rest => (rest, reply)
  | [] => ([], {| result := None; meanwhile := [] |})
  end.

Definition answer (st : Z) (d : value) : Reply :=
  {| result := Some {| status := st; data := d |}; meanwhile := [] |}.

Definition unauthorized : Reply :=
  answer 401 (VObj [("detail", VStr "Not authenticated")]).

(** A server that turns every request down with a 401. *)
Definition rejecting (_ : unit) (_ : Request) : unit * Reply :=
  (tt, unauthorized).

(** The answers of a service that wraps its payloads in a [data] member. *)
Definition session_reply (u : value) (t : string) : Reply :=
  answer 200 (VObj [("data", VObj [("user", u); ("access_token", VStr t)])]).

Definition refreshed (t : string) : Reply :=
  answer 200 (VObj [("data", VObj [("access_token", VStr t)])]).

Definition jobs_reply : Reply := answer 200 (VObj [("data", VArr [])]).

Definition denied : Reply :=
  answer 401 (VObj [("detail", VStr "Incorrect email or password")]).

(** The same reply, with other tasks acting on the store meanwhile. *)
Definition during (actions : list Action) (reply : Reply) : Reply :=
  {| result := result reply; meanwhile := actions |}.

Definition alice : value := VObj [("id", VStr "1"); ("email", VStr "a@x.com")].

(** A service that logs [alice] in with the token T1, refreshes to T2 and
    serves the bearer of T2 only. *)
Definition honest (_ : unit) (config : Request) : unit * Reply :=
  (tt,
   if String.eqb (url config) "/auth/login"
      || String.eqb (url config) "/auth/register"
   then answer 200
          (VObj [("data", VObj [("user", alice); ("access_token", VStr "T1")])])
   else if String.eqb (url config) "/auth/refresh"
   then answer 200 (VObj [("data", VObj [("access_token", VStr "T2")])])
   else
     match Authorization (headers config) with
     | Some h =>
         if String.eqb h "Bearer T2"
         then answer 200 (VObj [("data", VArr [])])
         else answer 401 (VObj [("detail", VStr "Not authenticated")])
     | None => answer 401 (VObj [("detail", VStr "Not authenticated")])
     end).

Definition get_jobs : Request := new_request "GET" "/jobs" VUndefined.

(** A session logged in as [alice] with token [T1], and the world that
    holds it with its snapshot. *)
Definition session_T1 : AuthState :=
  {| user := alice; token := VStr "T1"; isAuthenticated := true;
     isLoading := false; error := VNull |}.

Definition world_T1 {Server} (srv : Server) : World Server :=
  mkWorld session_T1 (Some (json_state (partialize session_T1))) srv [].

(* ================================================================== *)
(** ** The session invariant *)

(** [isAuthenticated == true] implies that the token is present, and that
    the user is present too where [setToken] is out of the picture. *)
Definition authenticated_ok (with_setToken : bool) (s : AuthState) : Prop :=
  isAuthenticated s = true ->
  present (token s) = true /\
  (with_setToken = false -> present (user s) = true).

(** What the store trusts the service for: where the payload of a
    successful answer can be read, the user and the access token that
    [login] and [register] take from it, and the access token that
    [refreshToken] takes from it, are present. *)
Definition session_payload_ok (b : value) : bool :=
  match read_session b with
  | Some (u, t) => present u && present t
  | None => true
  end.

Definition token_payload_ok (b : value) : bool :=
  match read_access_token b with
  | Some t => present t
  | None => true
  end.

Definition honours (u : string) (b : value) : bool :=
  if String.eqb u "/auth/login" || String.eqb u "/auth/register"
  then session_payload_ok b
  else if String.eqb u "/auth/refresh" then token_payload_ok b
  else true.

Definition is_setToken (a : Action) : bool :=
  match a with
  | DoSetToken _ => true
  | _ => false
  end.

Definition uses_setToken (op : Op) : bool :=
  match op with
  | OpSetToken _ => true
  | _ => false
  end.

(** Whether an operation, or an action of another task, is in use at all:
    [setToken] only where [with_setToken] says so. *)
Definition allowed (with_setToken : bool) (op : Op) : bool :=
  negb (uses_setToken op) || with_setToken.

Definition tolerated (with_setToken : bool) (a : Action) : bool :=
  negb (is_setToken a) || with_setToken.

(** The invariant of the world: the store is fine, and so is the store
    that a restart would rehydrate from the snapshot. *)
Definition Inv {Server} (with_setToken : bool) (w : World Server) : Prop :=
  authenticated_ok with_setToken (store w) /\
  (forall p, localStorage w = Some p ->
     authenticated_ok with_setToken (merge p initialState)).

(** What the interceptors and the store operations need of the instance
    they call: it keeps the invariant, and what it resolves with honours
    the contract of the service. *)
Definition api_spec {Server} (with_setToken : bool)
    (a : Request -> M Server Response) : Prop :=
  forall config w,
    Inv with_setToken w ->
    Inv with_setToken (fst (a config w)) /\
    (forall response,
       snd (a config w) = Resolved response ->
       honours (url config) (data response) = true).

(** The worlds that sequences of allowed operations lead to from the
    first process start.  A run that is out of fuel stops where it is: the
    world of a promise that is still pending counts as reached. *)
Inductive reachable {Server} (network : Server -> Request -> Server * Reply)
    (allowed : Op -> bool) : World Server -> Prop :=
| reachable_start srv : reachable network allowed (start srv)
| reachable_step w fuel op :
    reachable network allowed w ->
    allowed op = true ->
    reachable network allowed (fst (run network fuel op w)).

(* ================================================================== *)
(** ** The public-only guard: [components/auth/PublicRoute.tsx] *)

(** What a guard renders: the waiting spinner, a [<Navigate to replace />],
    or the children it was given. *)
Inductive Element : Type :=
| Spinner
| Navigate (to : string) (replace : bool)
| Children.

(** [PublicRoute], as a function of the store it reads. *)
Definition PublicRoute (s : AuthState) : Element :=
  if isLoading s then Spinner
  else if isAuthenticated s then Navigate "/dashboard" true
  else Children.

(* ================================================================== *)
(** ** Store and snapshot in step *)

(** The storage item holds what JSON carries of the store: a restart
    would find the user and the token as they come back from JSON, and the
    same [isAuthenticated]. *)
Definition in_sync {Server} (w : World Server) : Prop :=
  user (store (restart w)) = rehydrated (user (store w)) /\
  token (store (restart w)) = rehydrated (token (store w)) /\
  isAuthenticated (store (restart w)) = isAuthenticated (store w).

(* ================================================================== *)
(** ** The deployment script: [scripts/deploy.sh] *)

(** The script runs external commands under [set -e].  A run is modelled
    by the list of the commands it started, in order, and its exit status;
    whether the n-th command of a run succeeds is given from outside.  The
    messages it prints are left out. *)
Module Deploy.

(** The variables of the shell that the script reads: those it sets
    itself, and those it takes from the environment of the call.  An unset
    variable and an empty one are the same to every use here
    ([${X:-default}], [-n], [=]). *)
Record Vars : Type := mkVars {
  ENVIRONMENT : string;
  REGISTRY : string;
  REPOSITORY : string;
  DEPLOY_TARGET : string;
  SLACK_WEBHOOK_URL : string;
  APP_VERSION : string;
  GITHUB_REPOSITORY : string
}.

Inductive Cmd : Type :=
| CommandV (tool : string)               (* command -v tool *)
| ExportEnv (file : string)              (* export $(cat file | grep | xargs) *)
| DockerBuild (tag dir : string)
| DockerPush (tag : string)
| SedImage (suffix tag file : string)    (* sed -i s|..:.*-suffix|tag-suffix|g *)
| ComposePull (file : string)
| ComposeDown (file : string)
| ComposeUp (file : string)
| Sleep (seconds : nat)
| CurlHealth (url : string)              (* curl -f url *)
| PgIsReady (file : string)
| AlembicUpgrade (file : string)
| MkdirBackups
| PgDump (file backup : string)
| SlackPost (url text : string).

(** How the script ends: [exit 0] at its end, an [exit 1] of its own, or
    the death that [set -e] brings when a command fails. *)
Inductive Status : Type :=
| Exit0
| Exit1
| Died (c : Cmd).

Record State : Type := mkState {
  vars : Vars;
  ran : list Cmd
}.

(** [${n:-default}] on the positional parameters. *)
Definition arg (n : nat) (default : string) (args : list string) : string :=
  let a := nth n args "" in
  if String.eqb a "" then default else a.

(** The assignments at the head of the script. *)
Definition configuration (args : list string) (v : Vars) : Vars :=
  {| ENVIRONMENT := arg 0 "staging" args;
     REGISTRY := "ghcr.io";
     REPOSITORY :=
       if String.eqb (GITHUB_REPOSITORY v) "" then "job-agent-system"
       else GITHUB_REPOSITORY v;
     DEPLOY_TARGET := DEPLOY_TARGET v;
     SLACK_WEBHOOK_URL := SLACK_WEBHOOK_URL v;
     APP_VERSION := APP_VERSION v;
     GITHUB_REPOSITORY := GITHUB_REPOSITORY v |}.

(** [ENVIRONMENT=e]. *)
Definition set_ENVIRONMENT (e : string) (v : Vars) : Vars :=
  {| ENVIRONMENT := e;
     REGISTRY := REGISTRY v;
     REPOSITORY := REPOSITORY v;
     DEPLOY_TARGET := DEPLOY_TARGET v;
     SLACK_WEBHOOK_URL := SLACK_WEBHOOK_URL v;
     APP_VERSION := APP_VERSION v;
     GITHUB_REPOSITORY := GITHUB_REPOSITORY v |}.

Definition compose_file (environment : string) : string :=
  "docker-compose." ++ environment ++ ".yml".

Section Script.

(** Whether the n-th command started by the run exits with 0. *)
Variable ok : nat -> bool.

(** What the [export] of the lines of [.env.<environment>] does to the
    variables, when the file exists. *)
Variable env_file : string -> option (Vars -> Vars).

(** What [date +%Y%m%d-%H%M%S] prints for the version and for the backup. *)
Variable version_now : string.
Variable backup_now : string.

(** A piece of script: the state after it, and the exit status if the
    script has ended in it. *)
Definition Sh : Type := State -> State * option Status.

Definition skip : Sh := fun s => (s, None).

Definition exit1 : Sh := fun s => (s, Some Exit1).

Definition seq (a b : Sh) : Sh :=
  fun s =>
    match a s with
    | (s', None) => b s'
    | (s', Some st) => (s', Some st)
    end.

Notation "a ;; b" := (seq a b) (at level 61, right associativity).

Definition started (c : Cmd) (s : State) : State :=
  {| vars := vars s; ran := ran s ++ [c] |}.

(** A command as a statement: under [set -e] its failure ends the script. *)
Definition cmd (c : Cmd) : Sh :=
  fun s =>
    if ok (length (ran s)) then (started c s, None)
    else (started c s, Some (Died c)).

(** A command as the condition of an [if] whose failing side is
    [log_error ...; exit 1]. *)
Definition check (c : Cmd) : Sh :=
  fun s =>
    if ok (length (ran s)) then (started c s, None)
    else (started c s, Some Exit1).

Definition with_vars (k : Vars -> Sh) : Sh := fun s => k (vars s) s.

(** An assignment to the variables; also what a successful [export] of
    the lines of a file leaves. *)
Definition assign (f : Vars -> Vars) : Sh :=
  fun s => ({| vars := f (vars s); ran := ran s |}, None).

Definition check_requirements : Sh :=
  check (CommandV "docker") ;;
  check (CommandV "docker-compose") ;;
  with_vars (fun v =>
    if String.eqb (DEPLOY_TARGET v) "kubernetes"
    then check (CommandV "kubectl")
    else skip).

Definition load_env : Sh :=
  with_vars (fun v =>
    match env_file (ENVIRONMENT v) with
    | None => exit1
    | Some set_vars =>
        cmd (ExportEnv (".env." ++ ENVIRONMENT v)) ;; assign set_vars
    end).

Definition build_and_push : Sh :=
  with_vars (fun v =>
    let version :=
      if String.eqb (APP_VERSION v) "" then version_now else APP_VERSION v in
    let tag := REGISTRY v ++ "/" ++ REPOSITORY v ++ ":" ++ version in
    cmd (DockerBuild (tag ++ "-backend") "./backend") ;;
    cmd (DockerPush (tag ++ "-backend")) ;;
    cmd (DockerBuild (tag ++ "-frontend") "./frontend") ;;
    cmd (DockerPush (tag ++ "-frontend")) ;;
    cmd (SedImage "backend" tag (compose_file (ENVIRONMENT v))) ;;
    cmd (SedImage "frontend" tag (compose_file (ENVIRONMENT v)))).

Definition run_health_checks : Sh :=
  with_vars (fun v =>
    check (CurlHealth "http://localhost:8000/health") ;;
    check (CurlHealth "http://localhost:3000/") ;;
    check (PgIsReady (compose_file (ENVIRONMENT v)))).

Definition deploy_compose : Sh :=
  with_vars (fun v =>
    cmd (ComposePull (compose_file (ENVIRONMENT v))) ;;
    cmd (ComposeDown (compose_file (ENVIRONMENT v))) ;;
    cmd (ComposeUp (compose_file (ENVIRONMENT v))) ;;
    cmd (Sleep 30) ;;
    run_health_checks).

Definition run_migrations : Sh :=
  with_vars (fun v => cmd (AlembicUpgrade (compose_file (ENVIRONMENT v)))).

Definition backup_database : Sh :=
  with_vars (fun v =>
    cmd MkdirBackups ;;
    cmd (PgDump (compose_file (ENVIRONMENT v))
           ("./backups" ++ "/backup-" ++ backup_now ++ ".sql"))).

Definition send_notification (status message : string) : Sh :=
  with_vars (fun v =>
    if String.eqb (SLACK_WEBHOOK_URL v) "" then skip
    else cmd (SlackPost (SLACK_WEBHOOK_URL v)
                ("[" ++ ENVIRONMENT v ++ "] " ++ status ++ ": " ++ message))).

Definition deploy : Sh :=
  check_requirements ;;
  load_env ;;
  with_vars (fun v =>
    if String.eqb (ENVIRONMENT v) "production"
    then backup_database else skip) ;;
  build_and_push ;;
  deploy_compose ;;
  run_migrations ;;
  run_health_checks ;;
  with_vars (fun v =>
    send_notification "SUCCESS"
      ("Deployment to " ++ ENVIRONMENT v ++ " completed successfully")).

Definition rollback : Sh :=
  with_vars (fun v =>
    cmd (ComposeDown (compose_file (ENVIRONMENT v))) ;;
    cmd (ComposeUp (compose_file (ENVIRONMENT v))) ;;
    cmd (Sleep 30) ;;
    run_health_checks ;;
    send_notification "ROLLBACK" "Rollback completed").

(** The script, from its first line to the [esac]. *)
Definition main (args : list string) : Sh :=
  assign (configuration args) ;;
  (let command := arg 0 "deploy" args in
   let environment := arg 1 "staging" args in
   if String.eqb command "deploy"
   then assign (set_ENVIRONMENT environment) ;; deploy
   else if String.eqb command "rollback"
   then assign (set_ENVIRONMENT environment) ;; rollback
   else if String.eqb command "health-check"
   then assign (set_ENVIRONMENT environment) ;; load_env ;; run_health_checks
   else if String.eqb command "backup"
   then assign (set_ENVIRONMENT environment) ;; load_env ;; backup_database
   else exit1).

(** A call of the script in an environment [v]. *)
Definition script (v : Vars) (args : list string) : list Cmd * Status :=
  match main args {| vars := v; ran := [] |} with
  | (s, Some st) => (ran s, st)
  | (s, None) => (ran s, Exit0)
  end.

(** The run of an oracle that has been kind so far stops at the first
    command that fails: all started commands but the last have succeeded,
    a piece that goes on has seen no failure, and a death is the failure of
    the last command. *)
Definition stopped_at_failure (r : State * option Status) : Prop :=
  (forall i, S i < length (ran (fst r)) -> ok i = true) /\
  match snd r with
  | None | Some Exit0 => forall i, i < length (ran (fst r)) -> ok i = true
  | Some (Died c) =>
      exists l, ran (fst r) = (l ++ [c])%list /\ ok (length l) = false
  | Some Exit1 => True
  end.

Definition fail_stop (m : Sh) : Prop :=
  forall s,
    (forall i, i < length (ran s) -> ok i = true) -> stopped_at_failure (m s).

(** [m] under the given outcomes does what [m'] does, or ends earlier, on
    the way of [m']. *)
Definition follows (m m' : Sh) : Prop :=
  forall s,
    m s = m' s \/
    (snd (m s) <> None /\
     exists rest, ran (fst (m' s)) = (ran (fst (m s)) ++ rest)%list).

Definition extends (m : Sh) : Prop :=
  forall s, exists rest, ran (fst (m s)) = (ran s ++ rest)%list.

End Script.

(** The outcomes of a run in which nothing fails. *)
Definition kind (_ : nat) : bool := true.

(** The outcomes of a run in which the n-th command fails. *)
Definition fails_at (n i : nat) : bool := negb (Nat.eqb i n).

(** A call with nothing set, and a call with the target [kubernetes]. *)
Definition bare : Vars := mkVars "" "" "" "" "" "" "".

Definition on_kubernetes : Vars := mkVars "" "" "" "kubernetes" "" "" "".

(** [SLACK_WEBHOOK_URL=url]. *)
Definition set_SLACK_WEBHOOK_URL (url : string) (v : Vars) : Vars :=
  {| ENVIRONMENT := ENVIRONMENT v;
     REGISTRY := REGISTRY v;
     REPOSITORY := REPOSITORY v;
     DEPLOY_TARGET := DEPLOY_TARGET v;
     SLACK_WEBHOOK_URL := url;
     APP_VERSION := APP_VERSION v;
     GITHUB_REPOSITORY := GITHUB_REPOSITORY v |}.

(** The files of a project: [.env.production] sets the webhook,
    [.env.staging] sets nothing, and there is no other. *)
Definition project_files (e : string) : option (Vars -> Vars) :=
  if String.eqb e "production"
  then Some (set_SLACK_WEBHOOK_URL "https://hooks.slack.com/services/T0")
  else if String.eqb e "staging" then Some (fun v => v)
  else None.

(** The files of a project whose [.env.production] has the line
    [ENVIRONMENT=staging]. *)
Definition copied_files (e : string) : option (Vars -> Vars) :=
  if String.eqb e "production" then Some (set_ENVIRONMENT "staging")
  else None.

(** A scan of a trace: every entry that satisfies [p] has [q] hold of the
    entries before it. *)
Fixpoint guarded (p : Cmd -> bool) (q : list Cmd -> bool)
    (before l : list Cmd) : bool :=
  match l with
  | [] => true
  | c :: l' =>
      (negb (p c) || q before) && guarded p q (before ++ [c]) l'
  end.

Definition is_build (c : Cmd) : bool :=
  match c with
  | DockerBuild _ _ => true
  | _ => false
  end.

Definition is_dump (c : Cmd) : bool :=
  match c with
  | PgDump _ _ => true
  | _ => false
  end.

Definition is_probe (c : Cmd) : bool :=
  match c with
  | CommandV _ => true
  | _ => false
  end.

Definition is_export (c : Cmd) : bool :=
  match c with
  | ExportEnv _ => true
  | _ => false
  end.

Definition is_kubectl_check (c : Cmd) : bool :=
  match c with
  | CommandV tool => String.eqb tool "kubectl"
  | _ => false
  end.

Definition is_notification (c : Cmd) : bool :=
  match c with
  | SlackPost _ _ => true
  | _ => false
  end.

Definition is_health_check (c : Cmd) : bool :=
  match c with
  | CurlHealth _ | PgIsReady _ => true
  | _ => false
  end.

Definition is_migration (c : Cmd) : bool :=
  match c with
  | AlembicUpgrade _ => true
  | _ => false
  end.

(** A command that changes what is deployed or stored: a build, a push, a
    rewrite of the compose file, a migration, a dump. *)
Definition changes_release (c : Cmd) : bool :=
  match c with
  | DockerBuild _ _ | DockerPush _ | SedImage _ _ _
  | AlembicUpgrade _ | MkdirBackups | PgDump _ _ => true
  | _ => false
  end.

End Deploy.

(* ================================================================== *)
(** ** Values through JSON *)

(** Induction on a value, with the property known of the elements of an
    array and of the values of the fields of an object. *)
Lemma value_induction (P : value -> Prop) :
  P VUndefined -> P VNull -> (forall b, P (VBool b)) ->
  (forall n safe, P (VNum n safe)) -> (forall s, P (VStr s)) ->
  (forall items, Forall P items -> P (VArr items)) ->
  (forall fields, Forall (fun kv => P (snd kv)) fields -> P (VObj fields)) ->
  forall v, P v.
Proof.
  intros Hu Hn Hb Hnum Hs Ha Ho. fix IH 1.
  intros [ | | b | n safe | s | items | fields].
  - exact Hu.
  - exact Hn.
  - apply Hb.
  - apply Hnum.
  - apply Hs.
  - apply Ha. induction items as [ | x items IHitems]; constructor.
    + apply IH.
    + exact IHitems.
  - apply Ho. induction fields as [ | [k x] fields IHfields]; constructor.
    + apply IH.
    + exact IHfields.
Qed.

Lemma nullish_json v : nullish (json v) = nullish v.
Proof. destruct v; reflexivity. Qed.

Lemma json_defined v : v <> VUndefined -> json_member v = Some (json v).
Proof. destruct v; intros H; [contradiction H | ..]; reflexivity. Qed.

(** A value that holds no [undefined] comes back from JSON as it was. *)
Lemma json_is_json v : is_json v = true -> json v = v.
Proof.
  induction v as [ | | b | n safe | s | items IH | fields IH]
    using value_induction; intros H; try reflexivity.
  - simpl. f_equal. simpl in H.
    induction IH as [ | x items Hx _ IHitems]; [reflexivity | ].
    simpl in H. apply andb_prop in H. destruct H as [H1 H2].
    simpl. rewrite (IHitems H2). f_equal.
    destruct x; try discriminate H1; try reflexivity; apply (Hx H1).
  - simpl. f_equal. simpl in H.
    induction IH as [ | [k x] fields Hx _ IHfields]; [reflexivity | ].
    apply andb_prop in H. destruct H as [H1 H2]. simpl in Hx.
    rewrite (IHfields H2).
    destruct x; try discriminate H1; try reflexivity;
      f_equal; f_equal; apply (Hx H1).
Qed.

(** What has been through JSON goes through it unchanged. *)
Lemma json_idempotent v : json (json v) = json v.
Proof.
  induction v as [ | | b | n safe | s | items IH | fields IH]
    using value_induction; try reflexivity.
  - simpl. f_equal.
    induction IH as [ | x items Hx _ IHitems]; [reflexivity | ].
    simpl. rewrite IHitems. f_equal.
    destruct x; try reflexivity; exact Hx.
  - simpl. f_equal.
    induction IH as [ | [k x] fields Hx _ IHfields]; [reflexivity | ].
    destruct x; simpl in Hx |- *; try exact IHfields;
      f_equal; try exact IHfields; f_equal; exact Hx.
Qed.

Lemma json_member_is_json v : is_json v = true -> json_member v = Some v.
Proof.
  intros H. rewrite json_defined.
  - rewrite (json_is_json _ H). reflexivity.
  - intros ->. discriminate H.
Qed.

Lemma rehydrated_is_json v : is_json v = true -> rehydrated v = v.
Proof.
  intros H. unfold rehydrated. rewrite json_defined.
  - cbn [pick]. apply json_is_json, H.
  - intros ->. discriminate H.
Qed.

Lemma rehydrated_idempotent v : rehydrated (rehydrated v) = rehydrated v.
Proof.
  destruct v as [ | | b | n safe | s | items | fields]; try reflexivity.
  - change (json (json (VArr items)) = json (VArr items)).
    apply json_idempotent.
  - change (json (json (VObj fields)) = json (VObj fields)).
    apply json_idempotent.
Qed.

Lemma present_rehydrated v : present (rehydrated v) = present v.
Proof. destruct v; reflexivity. Qed.

(** What a restart just after a [set] finds in the three fields. *)
Lemma merge_json_state s :
  user (merge (json_state (partialize s)) initialState) = rehydrated (user s) /\
  token (merge (json_state (partialize s)) initialState)
    = rehydrated (token s) /\
  isAuthenticated (merge (json_state (partialize s)) initialState)
    = isAuthenticated s /\
  isLoading (merge (json_state (partialize s)) initialState) = false /\
  error (merge (json_state (partialize s)) initialState) = VNull.
Proof. repeat split. Qed.

(* ================================================================== *)
(** ** Properties of the store *)

Section StoreProperties.

Variable Server : Type.
Implicit Type w : World Server.

(** C10. [clearError()] sets the stored error to absent and leaves [user],
    [token], [isAuthenticated] and [isLoading] as they were, whatever the
    prior state. *)
Theorem clearError_frame w :
  error (store (clearError w)) = VNull /\
  user (store (clearError w)) = user (store w) /\
  token (store (clearError w)) = token (store w) /\
  isAuthenticated (store (clearError w)) = isAuthenticated (store w) /\
  isLoading (store (clearError w)) = isLoading (store w).
Proof. repeat split. Qed.

(** C6. Whatever the prior state, [logout()] leaves a store with
    [isAuthenticated] false, no token, no user, [isLoading] false and no
    error, and no persisted snapshot.  It is synchronous: it completes
    whatever the network would answer and with no fuel at all, puts nothing
    on the wire and leaves the server alone. *)
Theorem logout_clears_session w :
  (forall (network : Server -> Request -> Server * Reply) fuel,
     run network fuel OpLogout w = (logout w, Resolved tt)) /\
  store (logout w) = initialState /\
  isAuthenticated (store (logout w)) = false /\
  token (store (logout w)) = VNull /\
  user (store (logout w)) = VNull /\
  isLoading (store (logout w)) = false /\
  error (store (logout w)) = VNull /\
  localStorage (logout w) = None /\
  sent (logout w) = sent w /\
  server (logout w) = server w.
Proof. repeat split. Qed.

(** C8, as the code has it.  For every session state [s] (the store
    after any [set]), the snapshot that [persist] writes holds no key but
    [user], [token] and [isAuthenticated], with what JSON keeps of the
    values of [s]: all three keys when neither the user nor the token is
    [undefined], and never [isLoading] or [error].  Restoring it at a
    fresh start gives back [isAuthenticated], and the user and the token as
    they come back from JSON ([null] for an [undefined] one): the same
    values when they hold no [undefined]; [isLoading] and [error] are at
    their initial values, and the item is left as it was. *)
Theorem snapshot_roundtrip (p : Partial) w :
  let written := setState p w in
  let s := store written in
  let restored := restart written in
  (exists item,
     localStorage written = Some item /\
     p_user item = json_member (user s) /\
     p_token item = json_member (token s) /\
     p_isAuthenticated item = Some (isAuthenticated s) /\
     p_isLoading item = None /\
     p_error item = None /\
     incl (keys item) ["user"; "token"; "isAuthenticated"] /\
     (user s <> VUndefined -> token s <> VUndefined ->
      keys item = ["user"; "token"; "isAuthenticated"]) /\
     (is_json (user s) = true -> p_user item = Some (user s)) /\
     (is_json (token s) = true -> p_token item = Some (token s)) /\
     (user s = VUndefined -> p_user item = None) /\
     (token s = VUndefined -> p_token item = None)) /\
  user (store restored) = rehydrated (user s) /\
  token (store restored) = rehydrated (token s) /\
  isAuthenticated (store restored) = isAuthenticated s /\
  isLoading (store restored) = false /\
  error (store restored) = VNull /\
  (is_json (user s) = true -> user (store restored) = user s) /\
  (is_json (token s) = true -> token (store restored) = token s) /\
  (user s = VUndefined -> user (store restored) = VNull) /\
  (token s = VUndefined -> token (store restored) = VNull) /\
  localStorage restored = localStorage written.
Proof.
  cbv zeta.
  assert (Hu : user (store (restart (setState p w)))
               = rehydrated (user (store (setState p w))))
    by reflexivity.
  assert (Ht : token (store (restart (setState p w)))
               = rehydrated (token (store (setState p w))))
    by reflexivity.
  split.
  - exists (json_state (partialize (store (setState p w)))).
    split; [reflexivity | ].
    change (p_user (json_state (partialize (store (setState p w)))))
      with (json_member (user (store (setState p w)))).
    change (p_token (json_state (partialize (store (setState p w)))))
      with (json_member (token (store (setState p w)))).
    repeat (split; [reflexivity | ]).
    split; [ | split; [ | split; [ | split; [ | split]]]].
    + intros k. unfold keys.
      change (p_user (json_state (partialize (store (setState p w)))))
        with (json_member (user (store (setState p w)))).
      change (p_token (json_state (partialize (store (setState p w)))))
        with (json_member (token (store (setState p w)))).
      destruct (json_member _); destruct (json_member _); simpl; tauto.
    + intros Hdu Hdt. unfold keys.
      change (p_user (json_state (partialize (store (setState p w)))))
        with (json_member (user (store (setState p w)))).
      change (p_token (json_state (partialize (store (setState p w)))))
        with (json_member (token (store (setState p w)))).
      rewrite (json_defined Hdu), (json_defined Hdt). reflexivity.
    + apply json_member_is_json.
    + apply json_member_is_json.
    + intros ->. reflexivity.
    + intros ->. reflexivity.
  - split; [exact Hu | split; [exact Ht | ]].
    repeat (split; [reflexivity | ]).
    split; [ | split; [ | split; [ | split; [ | reflexivity]]]].
    + intros H. rewrite Hu. exact (rehydrated_is_json _ H).
    + intros H. rewrite Ht. exact (rehydrated_is_json _ H).
    + intros H. rewrite Hu, H. reflexivity.
    + intros H. rewrite Ht, H. reflexivity.
Qed.

End StoreProperties.

(** C8 as stated does not hold for every session state.  A login that is
    answered with a payload without [access_token] leaves the store
    authenticated with the token [undefined] (the store takes the payload
    unchecked).  The snapshot then has two keys, not three, and the
    restart brings back [null], not the token that was there. *)
Lemma snapshot_drops_undefined_token :
  let reply := answer 200 (VObj [("data", VObj [("user", alice)])]) in
  let w := fst (run scripted 1 (OpLogin "a@x.com" "pw") (start [reply])) in
  store w = {| user := alice; token := VUndefined; isAuthenticated := true;
               isLoading := false; error := VNull |} /\
  option_map keys (localStorage w) = Some ["user"; "isAuthenticated"] /\
  token (store (restart w)) = VNull /\
  token (store (restart w)) <> token (store w).
Proof.
  cbv zeta. repeat split. intros H. discriminate H.
Qed.

(** The snapshot of a session, and the session back from it. *)
Lemma snapshot_roundtrip_witness :
  let w := setState (logged_in alice (VStr "T1")) (start tt) in
  option_map keys (localStorage w)
    = Some ["user"; "token"; "isAuthenticated"] /\
  user (store (restart w)) = alice /\
  token (store (restart w)) = VStr "T1" /\
  isAuthenticated (store (restart w)) = true /\
  isLoading (store (restart w)) = false /\
  error (store (restart w)) = VNull.
Proof.
  cbv zeta.
  destruct (snapshot_roundtrip (logged_in alice (VStr "T1")) (start tt))
    as ((item & Hitem & _ & _ & _ & _ & _ & _ & Hkeys & _)
        & _ & _ & Ha & Hl & He & Hu & Ht & _).
  split.
  - rewrite Hitem. simpl. f_equal. apply Hkeys; intros H; discriminate H.
  - split; [exact (Hu eq_refl) | split; [exact (Ht eq_refl) | ]].
    split; [exact Ha | split; [exact Hl | exact He]].
Defined.

(* ================================================================== *)
(** ** Properties of the asynchronous store operations *)

(** These hold for any behaviour of the axios instance the services go
    through, so in particular for [api network fuel] at every fuel. *)
Section Operations.

Variable Server : Type.
Variable api : Request -> M Server Response.
Implicit Type w : World Server.

Lemma login_unfold email password w :
  login api email password w =
  match authService_login api email password (setState loading w) with
  | (w1, Resolved response) =>
      match read_session response with
      | Some (u, t) => (setState (logged_in u t) w1, Resolved tt)
      | None =>
          (setState (failed (VStr "Login failed")) w1, Rejected TypeError)
      end
  | (w1, Rejected e) =>
      (setState (failed (or_else (detail e) (VStr "Login failed"))) w1,
       Rejected e)
  | (w1, Pending) => (w1, Pending)
  end.
Proof.
  unfold login, bind, try_catch, exec, throw, eval, ret.
  destruct (authService_login api email password (setState loading w))
    as [w1 [response | e | ]]; try reflexivity.
  destruct (read_session response) as [[u t] | ]; reflexivity.
Qed.

Lemma register_unfold email password name w :
  register api email password name w =
  match authService_register api email password name (setState loading w) with
  | (w1, Resolved response) =>
      match read_session response with
      | Some (u, t) => (setState (logged_in u t) w1, Resolved tt)
      | None =>
          (setState (failed (VStr "Registration failed")) w1,
           Rejected TypeError)
      end
  | (w1, Rejected e) =>
      (setState (failed (or_else (detail e) (VStr "Registration failed"))) w1,
       Rejected e)
  | (w1, Pending) => (w1, Pending)
  end.
Proof.
  unfold register, bind, try_catch, exec, throw, eval, ret.
  destruct (authService_register api email password name (setState loading w))
    as [w1 [response | e | ]]; try reflexivity.
  destruct (read_session response) as [[u t] | ]; reflexivity.
Qed.

Lemma refreshToken_unfold w :
  refreshToken api w =
  if truthy (token (store w)) then
    match authService_refreshToken api w with
    | (w1, Resolved response) =>
        match read_access_token response with
        | Some t => (setState (token_only t) w1, Resolved tt)
        | None => (logout w1, Rejected TypeError)
        end
    | (w1, Rejected e) => (logout w1, Rejected e)
    | (w1, Pending) => (w1, Pending)
    end
  else (w, Resolved tt).
Proof.
  unfold refreshToken, bind, try_catch, exec, throw, eval, ret, getState.
  destruct (truthy (token (store w))); simpl; [ | reflexivity].
  destruct (authService_refreshToken api w) as [w1 [response | e | ]];
    try reflexivity.
  destruct (read_access_token response); reflexivity.
Qed.

Lemma response_rejected_unfold originalRequest response w :
  response_rejected api (AxiosError originalRequest response) w =
  if is_401 response && negb (_retry originalRequest) then
    match refreshToken api w with
    | (w', Resolved _) =>
        api (with_Authorization (bearer (token (store w')))
               (mark_retry originalRequest)) w'
    | (w', Rejected refreshError) => (logout w', Rejected refreshError)
    | (w', Pending) => (w', Pending)
    end
  else (w, Rejected (AxiosError originalRequest response)).
Proof.
  unfold response_rejected.
  destruct (is_401 response && negb (_retry originalRequest));
    [ | reflexivity].
  unfold bind, try_catch, exec, throw, getState.
  destruct (refreshToken api w) as [w' [[] | e | ]]; reflexivity.
Qed.

(** [read_session] on a response whose [data] member is an object. *)
Lemma read_session_payload response payload :
  prop response "data" = VObj payload ->
  read_session response =
    Some (prop (VObj payload) "user", prop (VObj payload) "access_token").
Proof.
  intros H. unfold read_session, member.
  destruct response; simpl in H; try discriminate H.
  simpl. unfold prop at 1. simpl in H. rewrite H. reflexivity.
Qed.

(** C4, as the code has it.  When the authentication service resolves with
    a response that carries the payload {user, access_token} in its [data]
    member, [login] resolves and the store holds that user, the returned
    access token and [isAuthenticated = true] (with [isLoading] false and
    no error). *)
Theorem login_success email password w w1 response payload u t :
  authService_login api email password (setState loading w)
    = (w1, Resolved response) ->
  prop response "data" = VObj payload ->
  lookup "user" payload = Some u ->
  lookup "access_token" payload = Some t ->
  exists w2,
    login api email password w = (w2, Resolved tt) /\
    user (store w2) = u /\
    token (store w2) = t /\
    isAuthenticated (store w2) = true /\
    isLoading (store w2) = false /\
    error (store w2) = VNull.
Proof.
  intros Hcall Hdata Hu Ht.
  rewrite login_unfold, Hcall, (read_session_payload _ Hdata).
  unfold prop. rewrite Hu, Ht.
  eexists. split; [reflexivity | repeat split].
Qed.

(** C7. A failing [login] ends with [user], [token] and [isAuthenticated]
    cleared and [isLoading] false.  Its error is the [detail] of the
    service response when there is a truthy one, a non-empty string in
    particular, and 'Login failed' when there is none: no response, a
    body that is null, a body without [detail] or with the empty string
    as [detail], or a payload that could not be read.  A rejection of the
    authentication service is handed on to the caller of [login]
    unchanged. *)
Theorem login_failure email password w :
  (forall w1 e,
     authService_login api email password (setState loading w)
       = (w1, Rejected e) ->
     snd (login api email password w) = Rejected e) /\
  (forall w' e,
     login api email password w = (w', Rejected e) ->
     user (store w') = VNull /\
     token (store w') = VNull /\
     isAuthenticated (store w') = false /\
     isLoading (store w') = false /\
     (truthy (detail e) = true -> error (store w') = detail e) /\
     (truthy (detail e) = false -> error (store w') = VStr "Login failed") /\
     (forall config response fields message,
        e = AxiosError config (Some response) ->
        data response = VObj fields ->
        lookup "detail" fields = Some (VStr message) ->
        message <> "" ->
        error (store w') = VStr message) /\
     (forall config,
        e = AxiosError config None ->
        error (store w') = VStr "Login failed") /\
     (forall config response,
        e = AxiosError config (Some response) ->
        nullish (data response) = true \/
        (exists fields,
           data response = VObj fields /\
           (lookup "detail" fields = None \/
            lookup "detail" fields = Some (VStr ""))) ->
        error (store w') = VStr "Login failed") /\
     (e = TypeError -> error (store w') = VStr "Login failed")).
Proof.
  split.
  - intros w1 e Hcall. rewrite login_unfold, Hcall. reflexivity.
  - intros w' e Hrun.
    assert (H : store w'
                = {| user := VNull; token := VNull; isAuthenticated := false;
                     isLoading := false;
                     error := if truthy (detail e) then detail e
                              else VStr "Login failed" |}).
    { rewrite login_unfold in Hrun.
      destruct (authService_login api email password (setState loading w))
        as [w1 [response | e1 | ]].
      - destruct (read_session response) as [[u t] | ];
          inversion Hrun; subst; reflexivity.
      - inversion Hrun; subst. reflexivity.
      - inversion Hrun. }
    rewrite H. cbn [user token isAuthenticated isLoading error].
    repeat (split; [reflexivity | ]).
    split; [intros Ht; rewrite Ht; reflexivity | ].
    split; [intros Ht; rewrite Ht; reflexivity | ].
    split.
    + intros config response fields message -> Hd Hl Hne.
      simpl. unfold opt_member. rewrite Hd. simpl. rewrite Hl. simpl.
      destruct (String.eqb message "") eqn:E; [ | reflexivity].
      apply String.eqb_eq in E. contradiction.
    + split; [intros config ->; reflexivity | ].
      split; [ | intros ->; reflexivity].
      intros config response -> [Hn | (fields & Hd & [Hl | Hl])];
        simpl; unfold opt_member.
      * rewrite Hn. reflexivity.
      * rewrite Hd. simpl. rewrite Hl. reflexivity.
      * rewrite Hd. simpl. rewrite Hl. reflexivity.
Qed.

(** C5, as the code has it.  [refreshToken()] resolves without doing
    anything when the store holds no (truthy) token.  Otherwise, when the
    refresh call resolves with a body that carries the payload in its
    [data] member, the token becomes [response.data.access_token] and
    [user], [isAuthenticated], [isLoading] and [error] stay as they were
    when the call returned; when the refresh call is rejected, [logout()]
    is run and the same rejection goes to the caller; and a body whose
    [data.access_token] cannot be read counts as a failure too:
    [logout()], and the [TypeError] goes to the caller.  While the refresh
    call has not settled, [refreshToken] has not either, and nothing is
    logged out. *)
Theorem refreshToken_contract w :
  (truthy (token (store w)) = false ->
   refreshToken api w = (w, Resolved tt)) /\
  (truthy (token (store w)) = true ->
   forall w1 response d,
     authService_refreshToken api w = (w1, Resolved response) ->
     member response "data" = Some d ->
     nullish d = false ->
     exists w2,
       refreshToken api w = (w2, Resolved tt) /\
       token (store w2) = prop d "access_token" /\
       user (store w2) = user (store w1) /\
       isAuthenticated (store w2) = isAuthenticated (store w1) /\
       isLoading (store w2) = isLoading (store w1) /\
       error (store w2) = error (store w1)) /\
  (truthy (token (store w)) = true ->
   forall w1 e,
     authService_refreshToken api w = (w1, Rejected e) ->
     refreshToken api w = (logout w1, Rejected e)) /\
  (truthy (token (store w)) = true ->
   forall w1 response,
     authService_refreshToken api w = (w1, Resolved response) ->
     read_access_token response = None ->
     refreshToken api w = (logout w1, Rejected TypeError)) /\
  (truthy (token (store w)) = true ->
   forall w1,
     authService_refreshToken api w = (w1, Pending) ->
     refreshToken api w = (w1, Pending)).
Proof.
  repeat split.
  - intros Hno. rewrite refreshToken_unfold, Hno. reflexivity.
  - intros Hheld w1 response d Hcall Hdata Hd.
    rewrite refreshToken_unfold, Hheld, Hcall.
    unfold read_access_token. rewrite Hdata. unfold member. rewrite Hd.
    eexists. split; [reflexivity | repeat split].
  - intros Hheld w1 e Hcall.
    rewrite refreshToken_unfold, Hheld, Hcall. reflexivity.
  - intros Hheld w1 response Hcall Hread.
    rewrite refreshToken_unfold, Hheld, Hcall, Hread. reflexivity.
  - intros Hheld w1 Hcall.
    rewrite refreshToken_unfold, Hheld, Hcall. reflexivity.
Qed.

End Operations.

(** The login of [alice], with a service that wraps the payload in
    [data]. *)
Lemma login_success_witness :
  exists w2,
    login (api scripted 1) "a@x.com" "pw" (start [session_reply alice "T1"])
      = (w2, Resolved tt) /\
    user (store w2) = alice /\
    token (store w2) = VStr "T1" /\
    isAuthenticated (store w2) = true /\
    isLoading (store w2) = false /\
    error (store w2) = VNull.
Proof. eapply login_success; reflexivity. Defined.

(** C4 as stated does not hold.  When the authentication service returns
    the bare object {user, access_token}, [response.data] is [undefined],
    reading [response.data.user] raises a [TypeError], and [login] ends in
    its [catch]: logged out, with the fallback message. *)
Lemma login_with_bare_payload_fails :
  let w :=
    start [answer 200 (VObj [("user", alice); ("access_token", VStr "T1")])] in
  let run := login (api scripted 1) "a@x.com" "pw" w in
  snd (authService_login (api scripted 1) "a@x.com" "pw" (setState loading w))
    = Resolved (VObj [("user", alice); ("access_token", VStr "T1")]) /\
  snd run = Rejected TypeError /\
  store (fst run)
    = {| user := VNull; token := VNull; isAuthenticated := false;
         isLoading := false; error := VStr "Login failed" |}.
Proof. repeat split. Qed.

(** A login that the service turns down with a 401 and a [detail] (the
    gateway resends it once before it gives up), and a login that gets no
    answer at all. *)
Lemma login_failure_witness :
  let turned_down :=
    login (api scripted 2) "a@x.com" "bad" (start [denied; denied]) in
  let unanswered := login (api scripted 2) "a@x.com" "pw" (start []) in
  (user (store (fst turned_down)) = VNull /\
   token (store (fst turned_down)) = VNull /\
   isAuthenticated (store (fst turned_down)) = false /\
   isLoading (store (fst turned_down)) = false /\
   error (store (fst turned_down)) = VStr "Incorrect email or password") /\
  (snd unanswered
   = Rejected
       (AxiosError
          (new_request "POST" "/auth/login"
             (VObj [("email", VStr "a@x.com"); ("password", VStr "pw")]))
          None) /\
   isAuthenticated (store (fst unanswered)) = false /\
   isLoading (store (fst unanswered)) = false /\
   error (store (fst unanswered)) = VStr "Login failed").
Proof.
  cbv zeta. split.
  - pose proof (proj2 (login_failure (api scripted 2) "a@x.com" "bad"
                         (start [denied; denied]))) as H.
    specialize (H _ _ eq_refl).
    destruct H as (Hu & Ht & Ha & Hl & _ & _ & Hmessage & _).
    repeat (split; [assumption | ]).
    apply (Hmessage _ _ _ _ eq_refl eq_refl eq_refl).
    intros H. discriminate H.
  - pose proof (proj2 (login_failure (api scripted 2) "a@x.com" "pw"
                         (start []))) as H.
    specialize (H _ _ eq_refl).
    destruct H as (_ & _ & Ha & Hl & _ & _ & _ & Hnone & _).
    split; [reflexivity | split; [exact Ha | split; [exact Hl | ]]].
    exact (Hnone _ eq_refl).
Defined.

(** C5 as stated does not hold.  When the refresh endpoint returns the
    bare object {access_token}, [response.data] is [undefined], reading
    [response.data.access_token] raises a [TypeError], and [refreshToken]
    ends in its [catch]: the session is logged out, its snapshot erased,
    and the caller gets the [TypeError]. *)
Lemma refreshToken_with_bare_payload_fails :
  let w := world_T1 [answer 200 (VObj [("access_token", VStr "T2")])] in
  let run := refreshToken (api scripted 1) w in
  truthy (token (store w)) = true /\
  snd (authService_refreshToken (api scripted 1) w)
    = Resolved (VObj [("access_token", VStr "T2")]) /\
  snd run = Rejected TypeError /\
  store (fst run) = initialState /\
  localStorage (fst run) = None.
Proof. repeat split. Qed.

(** The refresh of a session that holds T1 and is given T2. *)
Lemma refreshToken_contract_witness :
  exists w2,
    refreshToken (api scripted 1) (world_T1 [refreshed "T2"])
      = (w2, Resolved tt) /\
    token (store w2) = VStr "T2" /\
    user (store w2) = alice /\
    isAuthenticated (store w2) = true /\
    isLoading (store w2) = false /\
    error (store w2) = VNull.
Proof.
  destruct (refreshToken_contract (api scripted 1) (world_T1 [refreshed "T2"]))
    as [_ [H _]].
  exact (H eq_refl _ _ _ eq_refl eq_refl eq_refl).
Defined.

(* ================================================================== *)
(** ** Properties of the gateway *)

Section Gateway.

Variable Server : Type.
Variable network : Server -> Request -> Server * Reply.
Implicit Type w : World Server.

Lemma sent_perform a w : sent (perform a w) = sent w.
Proof. destruct a; reflexivity. Qed.

Lemma sent_perform_all actions w :
  sent (fold_left (fun w' a => perform a w') actions w) = sent w.
Proof.
  revert w. induction actions as [ | a actions IH]; intros w; simpl.
  - reflexivity.
  - rewrite IH. apply sent_perform.
Qed.

(** Every trip on the wire adds the request, and nothing else, to the log. *)
Lemma sent_dispatch config w w' r :
  dispatch network config w = (w', r) -> sent w' = (sent w ++ [config])%list.
Proof.
  unfold dispatch. destruct (network (server w) config) as [srv reply].
  intros H. inversion H; subst. apply sent_perform_all.
Qed.

Lemma retry_request_interceptor config w :
  _retry (request_interceptor config w) = _retry config.
Proof.
  unfold request_interceptor. destruct (truthy (token (store w))); reflexivity.
Qed.

(** The header written by the response interceptor is the one the request
    interceptor would write for the same token. *)
Lemma request_interceptor_resend t config w :
  token (store w) = t ->
  request_interceptor (with_Authorization (bearer t) config) w
  = with_Authorization (bearer t) config.
Proof.
  intros Ht. unfold request_interceptor. rewrite Ht.
  destruct (truthy t); reflexivity.
Qed.

Lemma api_retried fuel config w w' r :
  _retry config = true ->
  dispatch network (request_interceptor config w) w = (w', r) ->
  api network (S fuel) config w
  = (w', settled (request_interceptor config w) r).
Proof.
  intros Hretry Hd. simpl. rewrite Hd. unfold settled.
  destruct (settle (request_interceptor config w) r) as [response | e] eqn:Hs.
  - reflexivity.
  - unfold settle in Hs. destruct r as [response | ].
    + destruct (validateStatus (status response)); inversion Hs; subst.
      rewrite response_rejected_unfold.
      rewrite retry_request_interceptor, Hretry, andb_false_r.
      reflexivity.
    + inversion Hs; subst. rewrite response_rejected_unfold. reflexivity.
Qed.

(** The run of the retry protocol when the refresh call is answered with a
    success: first trip, refresh, resend, and the resend's outcome. *)
Lemma retry_protocol fuel config w w1 resp1 w2 resp2 t2 w3 r3 :
  _retry config = false ->
  dispatch network (request_interceptor config w) w = (w1, Some resp1) ->
  status resp1 = 401%Z ->
  truthy (token (store w1)) = true ->
  dispatch network (request_interceptor refresh_request w1) w1
    = (w2, Some resp2) ->
  validateStatus (status resp2) = true ->
  read_access_token (data resp2) = Some t2 ->
  dispatch network
    (with_Authorization (bearer t2) (mark_retry (request_interceptor config w)))
    (setState (token_only t2) w2) = (w3, r3) ->
  api network (S (S fuel)) config w
  = (w3, settled (with_Authorization (bearer t2)
                    (mark_retry (request_interceptor config w))) r3).
Proof.
  intros Hretry Hd1 H401 Hheld Hd2 Hok Htok Hd3.
  change (api network (S (S fuel)) config w)
    with (let config1 := request_interceptor config w in
          let (w1', r) := dispatch network config1 w in
          match settle config1 r with
          | inl response => (w1', Resolved response)
          | inr e => response_rejected (api network (S fuel)) e w1'
          end).
  cbv zeta. rewrite Hd1. unfold settle at 1.
  assert (Hv : validateStatus (status resp1) = false)
    by (rewrite H401; reflexivity).
  rewrite Hv, response_rejected_unfold.
  assert (H1 : is_401 (Some resp1) = true)
    by (simpl; rewrite H401; reflexivity).
  rewrite H1, retry_request_interceptor, Hretry. cbn [negb andb].
  rewrite refreshToken_unfold, Hheld.
  assert (Hcall : authService_refreshToken (api network (S fuel)) w1
                  = (w2, Resolved (data resp2))).
  { unfold authService_refreshToken, bind, ret.
    simpl api. rewrite Hd2. unfold settle. rewrite Hok. reflexivity. }
  rewrite Hcall, Htok.
  change (token (store (setState _ w2))) with t2.
  rewrite (@api_retried fuel _ _ w3 r3).
  - rewrite request_interceptor_resend by reflexivity. reflexivity.
  - reflexivity.
  - rewrite request_interceptor_resend by reflexivity. exact Hd3.
Qed.

Lemma sent_retry_protocol config w w1 r1 w2 r2 p resend w3 r3 :
  dispatch network (request_interceptor config w) w = (w1, r1) ->
  dispatch network (request_interceptor refresh_request w1) w1 = (w2, r2) ->
  dispatch network resend (setState p w2) = (w3, r3) ->
  sent w3 = (sent w ++ [request_interceptor config w;
                        request_interceptor refresh_request w1;
                        resend])%list.
Proof.
  intros H1 H2 H3.
  rewrite (sent_dispatch _ _ H3). simpl sent at 1.
  rewrite (sent_dispatch _ _ H2), (sent_dispatch _ _ H1).
  rewrite <- !app_assoc. reflexivity.
Qed.

(** C1, as the code has it.  A request that is answered with a 401 while
    its retry marker is not set, with a token held and the refresh call
    answered with a success whose body has a [data] member to read the
    access token from: the gateway puts exactly three requests on the
    wire, namely the request, one refresh and one resend.  The resend is
    the original request, marked as retried, with [Authorization] rebuilt
    from the token the store holds once the refresh has completed; what
    the wire gives for the resend goes to the caller as it is, and a 401
    there is a plain rejection with no second refresh. *)
Theorem retry_after_successful_refresh
    fuel config w w1 resp1 w2 resp2 t2 w3 r3 :
  _retry config = false ->
  dispatch network (request_interceptor config w) w = (w1, Some resp1) ->
  status resp1 = 401%Z ->
  truthy (token (store w1)) = true ->
  dispatch network (request_interceptor refresh_request w1) w1
    = (w2, Some resp2) ->
  validateStatus (status resp2) = true ->
  read_access_token (data resp2) = Some t2 ->
  let first := request_interceptor config w in
  let refresh := request_interceptor refresh_request w1 in
  let resend := with_Authorization (bearer t2) (mark_retry first) in
  let refreshed := setState (token_only t2) w2 in
  dispatch network resend refreshed = (w3, r3) ->
  api network (S (S fuel)) config w = (w3, settled resend r3) /\
  sent w3 = (sent w ++ [first; refresh; resend])%list /\
  Authorization (headers resend)
    = Some ("Bearer " ++ to_string (token (store refreshed))) /\
  token (store refreshed) = t2 /\
  (method resend, url resend, body resend)
    = (method config, url config, body config) /\
  _retry resend = true /\
  (forall resp3,
     r3 = Some resp3 -> status resp3 = 401%Z ->
     settled resend r3 = Rejected (AxiosError resend (Some resp3))).
Proof.
  intros Hretry Hd1 H401 Hheld Hd2 Hok Htok first refresh resend refreshed Hd3.
  split; [ | split; [ | repeat split]].
  - eapply retry_protocol; eassumption.
  - eapply sent_retry_protocol; eassumption.
  - unfold resend, first, request_interceptor.
    destruct (truthy (token (store w))); reflexivity.
  - intros resp3 -> H3. unfold settled, settle.
    assert (Hv : validateStatus (status resp3) = false)
      by (rewrite H3; reflexivity).
    rewrite Hv. reflexivity.
Qed.

Lemma perform_all_logout_last (earlier : list Action) w :
  store (fold_left (fun w' a => perform a w') (earlier ++ [DoLogout]) w)
  = initialState.
Proof. rewrite fold_left_app. reflexivity. Qed.

(** C9, what the code does when a logout runs while the refresh call of
    the retry protocol is on the wire.  The logout clears the store and
    erases the snapshot, and [refreshToken], called at that point, would
    return at once for want of a token.  But the call that is under way
    resumes after its [await] and, the refresh having succeeded, writes
    the new access token into the logged-out store and into a new
    snapshot: a token with no user and with [isAuthenticated] false.  The
    resend is issued and, the gateway reading the token at resend time, it
    carries [Authorization: Bearer <new token>]; it does not go out
    unauthenticated. *)
Theorem resend_after_logout_during_refresh
    fuel config w w1 resp1 srv2 reply2 earlier resp2 t2 w3 r3 :
  _retry config = false ->
  dispatch network (request_interceptor config w) w = (w1, Some resp1) ->
  status resp1 = 401%Z ->
  truthy (token (store w1)) = true ->
  network (server w1) (request_interceptor refresh_request w1)
    = (srv2, reply2) ->
  meanwhile reply2 = (earlier ++ [DoLogout])%list ->
  result reply2 = Some resp2 ->
  validateStatus (status resp2) = true ->
  read_access_token (data resp2) = Some t2 ->
  let first := request_interceptor config w in
  let refresh := request_interceptor refresh_request w1 in
  let resumed := fst (dispatch network refresh w1) in
  let refreshed := setState (token_only t2) resumed in
  let resend := with_Authorization (bearer t2) (mark_retry first) in
  dispatch network resend refreshed = (w3, r3) ->
  store resumed = initialState /\
  localStorage resumed = None /\
  refreshToken (api network fuel) resumed = (resumed, Resolved tt) /\
  token (store refreshed) = t2 /\
  user (store refreshed) = VNull /\
  isAuthenticated (store refreshed) = false /\
  (exists item,
     localStorage refreshed = Some item /\
     p_token item = json_member t2 /\
     (is_json t2 = true -> p_token item = Some t2) /\
     p_isAuthenticated item = Some false) /\
  api network (S (S fuel)) config w = (w3, settled resend r3) /\
  sent w3 = (sent w ++ [first; refresh; resend])%list /\
  Authorization (headers resend) = Some ("Bearer " ++ to_string t2).
Proof.
  intros Hretry Hd1 H401 Hheld Hnet Hmean Hres Hok Htok
         first refresh resumed refreshed resend Hd3.
  assert (Hd2 : dispatch network refresh w1 = (resumed, Some resp2)).
  { unfold resumed, refresh, dispatch. rewrite Hnet, Hres. reflexivity. }
  assert (Hresumed : store resumed = initialState /\ localStorage resumed = None).
  { unfold resumed, refresh, dispatch. rewrite Hnet, Hmean.
    rewrite fold_left_app. split; reflexivity. }
  destruct Hresumed as [Hlogout Hitem].
  split; [exact Hlogout | ].
  split; [exact Hitem | ].
  split; [rewrite refreshToken_unfold, Hlogout; reflexivity | ].
  split; [reflexivity | ].
  split; [unfold refreshed; simpl; rewrite Hlogout; reflexivity | ].
  split; [unfold refreshed; simpl; rewrite Hlogout; reflexivity | ].
  split.
  { eexists. split; [reflexivity | ].
    split; [reflexivity | ].
    split; [apply json_member_is_json | ].
    simpl. rewrite Hlogout. reflexivity. }
  split; [ | split].
  - eapply retry_protocol; eassumption.
  - eapply sent_retry_protocol; eassumption.
  - reflexivity.
Qed.

End Gateway.

(** C1 as stated does not hold for every unmarked request that meets a 401.
    When the refresh call fails (here with a 500), the request is not
    resent: the wire sees the request and the refresh call, and the caller
    gets the rejection of the refresh. *)
Lemma failed_refresh_is_not_followed_by_a_resend :
  let w :=
    world_T1 [unauthorized;
              answer 500 (VObj [("detail", VStr "Internal Server Error")])] in
  let run := api scripted 5 get_jobs w in
  _retry get_jobs = false /\
  result (snd (scripted (server w) (request_interceptor get_jobs w)))
    = Some {| status := 401;
              data := VObj [("detail", VStr "Not authenticated")] |} /\
  sent (fst run)
    = [with_Authorization "Bearer T1" get_jobs;
       with_Authorization "Bearer T1" refresh_request] /\
  snd run
    = Rejected
        (AxiosError (with_Authorization "Bearer T1" refresh_request)
           (Some {| status := 500;
                    data := VObj [("detail",
                                   VStr "Internal Server Error")] |})).
Proof. repeat split. Qed.

(** A request whose resend meets a 401 again: three requests on the wire,
    and the second 401 is the result. *)
Lemma retry_after_successful_refresh_witness :
  let w := world_T1 [unauthorized; refreshed "T2"; unauthorized] in
  let resend := with_Authorization "Bearer T2" (mark_retry get_jobs) in
  exists w3,
    api scripted 2 get_jobs w
      = (w3,
         Rejected
           (AxiosError resend
              (Some {| status := 401;
                       data := VObj [("detail", VStr "Not authenticated")] |})))
    /\
    sent w3 = [with_Authorization "Bearer T1" get_jobs;
               with_Authorization "Bearer T1" refresh_request;
               resend] /\
    token (store w3) = VStr "T2".
Proof.
  cbv zeta.
  destruct (@retry_after_successful_refresh _ scripted 0 get_jobs
              (world_T1 [unauthorized; refreshed "T2"; unauthorized])
              _ _ _ _ _ _ _
              eq_refl eq_refl eq_refl eq_refl eq_refl eq_refl eq_refl eq_refl)
    as (Hrun & Hsent & _).
  eexists. split; [exact Hrun | split; [exact Hsent | reflexivity]].
Defined.

(** The same at a run: a logout while the refresh call is on the wire,
    followed by the success of that call.  The resend goes out with the
    new token T2 as its bearer credential, and the logged-out store ends
    up holding T2. *)
Lemma logout_during_refresh_resend_carries_token :
  let w :=
    world_T1 [unauthorized; during [DoLogout] (refreshed "T2"); jobs_reply] in
  let run := api scripted 5 get_jobs w in
  map (fun r => (url r, Authorization (headers r), _retry r)) (sent (fst run))
    = [("/jobs", Some "Bearer T1", false);
       ("/auth/refresh", Some "Bearer T1", false);
       ("/jobs", Some "Bearer T2", true)] /\
  snd run = Resolved {| status := 200; data := VObj [("data", VArr [])] |} /\
  store (fst run)
    = {| user := VNull; token := VStr "T2"; isAuthenticated := false;
         isLoading := false; error := VNull |}.
Proof. repeat split. Qed.

(** The same run, by the theorem: the resend is on the wire, with T2, and
    the snapshot written after the logout holds T2. *)
Lemma resend_after_logout_during_refresh_witness :
  let w :=
    world_T1 [unauthorized; during [DoLogout] (refreshed "T2"); jobs_reply] in
  let resend := with_Authorization "Bearer T2" (mark_retry get_jobs) in
  exists w3,
    api scripted 2 get_jobs w
      = (w3, Resolved {| status := 200; data := VObj [("data", VArr [])] |}) /\
    sent w3 = [with_Authorization "Bearer T1" get_jobs;
               with_Authorization "Bearer T1" refresh_request;
               resend] /\
    Authorization (headers resend) = Some "Bearer T2" /\
    store w3 = {| user := VNull; token := VStr "T2"; isAuthenticated := false;
                  isLoading := false; error := VNull |} /\
    exists item,
      localStorage w3 = Some item /\
      p_token item = Some (VStr "T2") /\
      p_isAuthenticated item = Some false.
Proof.
  cbv zeta.
  destruct (@resend_after_logout_during_refresh _ scripted 0 get_jobs
              (world_T1 [unauthorized; during [DoLogout] (refreshed "T2");
                         jobs_reply])
              _ _ _ _ [] _ _ _ _
              eq_refl eq_refl eq_refl eq_refl eq_refl eq_refl eq_refl eq_refl
              eq_refl eq_refl)
    as (_ & _ & _ & _ & _ & _ & (item & Hitem & _ & Htoken & Hauth)
        & Hrun & Hsent & Hbearer).
  eexists. split; [exact Hrun | split; [exact Hsent | ]].
  split; [exact Hbearer | split; [reflexivity | ]].
  exists item.
  split; [exact Hitem | split; [exact (Htoken eq_refl) | exact Hauth]].
Defined.

(** The scenario of a 401 in mid-session: refresh to T2, resend with
    [Bearer T2], and the caller has the payload of the resend. *)
Example refresh_and_retry_scenario :
  let run := api scripted 2 get_jobs
               (world_T1 [unauthorized; refreshed "T2"; jobs_reply]) in
  snd run = Resolved {| status := 200; data := VObj [("data", VArr [])] |} /\
  map (fun r => (url r, Authorization (headers r))) (sent (fst run))
    = [("/jobs", Some "Bearer T1");
       ("/auth/refresh", Some "Bearer T1");
       ("/jobs", Some "Bearer T2")] /\
  token (store (fst run)) = VStr "T2" /\
  user (store (fst run)) = alice /\
  isAuthenticated (store (fst run)) = true.
Proof. repeat split. Qed.

(** Without a token in the store, [refreshToken] resolves at once, no
    refresh call is made, and the resend carries the text that the
    template literal makes of [null]. *)
Example retry_without_token :
  let run := api scripted 2 get_jobs (start [unauthorized; jobs_reply]) in
  snd run = Resolved {| status := 200; data := VObj [("data", VArr [])] |} /\
  map (fun r => (url r, Authorization (headers r))) (sent (fst run))
    = [("/jobs", None); ("/jobs", Some "Bearer null")].
Proof. repeat split. Qed.

(** For the server that turns everything down, a request of a session that
    holds a token never settles: each refresh call is itself answered with
    a 401 and starts the next one. *)
Lemma api_rejecting n config (w : World unit) :
  store w = session_T1 ->
  _retry config = false ->
  api rejecting n config w
  = (mkWorld (store w) (localStorage w) tt
       (sent w ++
        match n with
        | O => []
        | S m =>
            with_Authorization "Bearer T1" config
              :: repeat (with_Authorization "Bearer T1" refresh_request) m
        end),
     Pending).
Proof.
  revert config w.
  induction n as [ | n IH]; intros config [s ls [] log] Hs Hretry;
    simpl in Hs; subst s.
  - simpl. rewrite app_nil_r. reflexivity.
  - change (api rejecting (S n) config (mkWorld session_T1 ls tt log))
      with (response_rejected (api rejecting n)
              (AxiosError (with_Authorization "Bearer T1" config)
                 (Some {| status := 401;
                          data := VObj [("detail",
                                         VStr "Not authenticated")] |}))
              (mkWorld session_T1 ls tt
                 (log ++ [with_Authorization "Bearer T1" config]))).
    rewrite response_rejected_unfold.
    change (_retry (with_Authorization "Bearer T1" config))
      with (_retry config).
    rewrite Hretry.
    cbn [is_401 status Z.eqb Pos.eqb negb andb].
    rewrite refreshToken_unfold. simpl truthy. cbn iota.
    unfold authService_refreshToken, bind.
    rewrite IH by reflexivity. simpl.
    rewrite <- app_assoc. simpl. destruct n; reflexivity.
Qed.

(** C2, what the code does on a 401 of [/auth/refresh].  Against a server
    that answers every request with a 401, a request of a logged-in
    session does not settle within any number [fuel] of nested calls: the
    401 of each refresh call goes through the same response interceptor
    and starts another refresh call.  After the request itself the wire
    sees nothing but refresh calls, [fuel - 1] of them, no logout takes
    place and the session stays as it was. *)
Theorem refresh_401_starts_another_refresh (fuel : nat) :
  let run := api rejecting fuel get_jobs (world_T1 tt) in
  snd run = Pending /\
  store (fst run) = session_T1 /\
  localStorage (fst run) = Some (partialize session_T1) /\
  sent (fst run)
  = match fuel with
    | O => []
    | S n =>
        with_Authorization "Bearer T1" get_jobs
          :: repeat (with_Authorization "Bearer T1" refresh_request) n
    end.
Proof.
  cbv zeta. rewrite api_rejecting by reflexivity. repeat split.
Qed.

(** The same defect in a run that settles: the first refresh call meets a
    401, which starts a second refresh call; when that one succeeds the
    first is resent.  Three refresh calls for one request, and at no point
    a logout. *)
Example refresh_401_is_retried_like_any_request :
  let run := api scripted 4 get_jobs
               (world_T1 [unauthorized; unauthorized; refreshed "T2";
                          refreshed "T3"; jobs_reply]) in
  snd run = Resolved {| status := 200; data := VObj [("data", VArr [])] |} /\
  map (fun r => (url r, Authorization (headers r), _retry r)) (sent (fst run))
    = [("/jobs", Some "Bearer T1", false);
       ("/auth/refresh", Some "Bearer T1", false);
       ("/auth/refresh", Some "Bearer T1", false);
       ("/auth/refresh", Some "Bearer T2", true);
       ("/jobs", Some "Bearer T3", true)] /\
  isAuthenticated (store (fst run)) = true /\
  token (store (fst run)) = VStr "T3".
Proof. repeat split. Qed.

(* ================================================================== *)
(** ** The session invariant, proved *)

Section Invariant.

Variable Server : Type.
Variable network : Server -> Request -> Server * Reply.
Implicit Type w : World Server.

(** Whether [setToken] is among the operations in use. *)
Variable with_setToken : bool.

Lemma authenticated_ok_snapshot s :
  authenticated_ok with_setToken s ->
  authenticated_ok with_setToken
    (merge (json_state (partialize s)) initialState).
Proof.
  intros H Hauth. destruct (merge_json_state s) as (Hu & Ht & Ha & _).
  rewrite Ha in Hauth. rewrite Hu, Ht, !present_rehydrated.
  exact (H Hauth).
Qed.

Lemma Inv_setState p w :
  authenticated_ok with_setToken (merge p (store w)) ->
  Inv with_setToken (setState p w).
Proof.
  intros H. split; [exact H | ].
  intros q Hq. simpl in Hq. injection Hq as <-.
  apply authenticated_ok_snapshot, H.
Qed.

Lemma Inv_logged_out (p : Partial) w :
  p_isAuthenticated p = Some false -> Inv with_setToken (setState p w).
Proof.
  intros H. apply Inv_setState. intros Hauth.
  simpl in Hauth. rewrite H in Hauth. discriminate Hauth.
Qed.

Lemma Inv_logout w : Inv with_setToken (logout w).
Proof.
  split; [ | intros q Hq; discriminate Hq].
  intros Hauth. discriminate Hauth.
Qed.

Lemma Inv_frame (p : Partial) w :
  p_user p = None -> p_token p = None -> p_isAuthenticated p = None ->
  Inv with_setToken w -> Inv with_setToken (setState p w).
Proof.
  intros Hu Ht Ha [Hs _]. apply Inv_setState.
  unfold authenticated_ok, merge. simpl. rewrite Hu, Ht, Ha. exact Hs.
Qed.

Lemma Inv_setUser u w :
  present u = true -> Inv with_setToken w -> Inv with_setToken (setUser u w).
Proof.
  intros Hu [Hs _]. apply Inv_setState. intros Hauth.
  destruct (Hs Hauth) as [Ht _]. split; [exact Ht | intros _; exact Hu].
Qed.

Lemma Inv_setToken t w :
  with_setToken = true -> Inv with_setToken (setToken (VStr t) w).
Proof.
  intros Hb. apply Inv_setState. intros _. split; [reflexivity | ].
  intros Hno. rewrite Hb in Hno. discriminate Hno.
Qed.

Lemma Inv_token_only t w :
  present t = true ->
  Inv with_setToken w -> Inv with_setToken (setState (token_only t) w).
Proof.
  intros Ht [Hs _]. apply Inv_setState. intros Hauth.
  destruct (Hs Hauth) as [_ Hu]. split; [exact Ht | exact Hu].
Qed.

Lemma Inv_logged_in u t w :
  present u = true -> present t = true ->
  Inv with_setToken (setState (logged_in u t) w).
Proof.
  intros Hu Ht. apply Inv_setState. intros _.
  split; [exact Ht | intros _; exact Hu].
Qed.

Lemma Inv_restart w : Inv with_setToken w -> Inv with_setToken (restart w).
Proof.
  intros [_ Hp]. unfold restart.
  destruct (localStorage w) as [snapshot | ].
  - split.
    + exact (Hp snapshot eq_refl).
    + intros q Hq. simpl in Hq. injection Hq as <-.
      exact (Hp snapshot eq_refl).
  - split; [ | intros q Hq; discriminate Hq].
    intros Hauth. discriminate Hauth.
Qed.

Lemma Inv_perform a w :
  tolerated with_setToken a = true ->
  Inv with_setToken w -> Inv with_setToken (perform a w).
Proof.
  destruct a; simpl; intros Ha H.
  - apply Inv_logout.
  - apply Inv_frame; [reflexivity .. | exact H].
  - apply Inv_setUser; [reflexivity | exact H].
  - apply Inv_setToken. exact Ha.
Qed.

Lemma Inv_perform_all actions w :
  forallb (tolerated with_setToken) actions = true ->
  Inv with_setToken w ->
  Inv with_setToken (fold_left (fun w' a => perform a w') actions w).
Proof.
  revert w. induction actions as [ | a actions IH]; intros w Hq H; simpl.
  - exact H.
  - simpl in Hq. apply andb_prop in Hq. destruct Hq as [Ha Hq].
    apply IH; [exact Hq | ]. apply Inv_perform; assumption.
Qed.

(** What is assumed of the other side: the service keeps to its contract,
    and the tasks that run meanwhile call [setToken] only where it is in
    use. *)
Hypothesis contract :
  forall srv config response,
    result (snd (network srv config)) = Some response ->
    validateStatus (status response) = true ->
    honours (url config) (data response) = true.

Hypothesis meanwhile_tolerated :
  forall srv config,
    forallb (tolerated with_setToken)
      (meanwhile (snd (network srv config))) = true.

Lemma Inv_dispatch config w :
  Inv with_setToken w -> Inv with_setToken (fst (dispatch network config w)).
Proof.
  intros H. unfold dispatch.
  pose proof (meanwhile_tolerated (server w) config) as Hq.
  destruct (network (server w) config) as [srv reply]. simpl in *.
  apply Inv_perform_all; [exact Hq | exact H].
Qed.

Lemma result_dispatch config w :
  snd (dispatch network config w) = result (snd (network (server w) config)).
Proof.
  unfold dispatch. destruct (network (server w) config); reflexivity.
Qed.

Lemma Inv_refreshToken a w :
  api_spec with_setToken a ->
  Inv with_setToken w -> Inv with_setToken (fst (refreshToken a w)).
Proof.
  intros Ha H. rewrite refreshToken_unfold.
  destruct (truthy (token (store w))); [ | exact H].
  unfold authService_refreshToken, bind, ret.
  destruct (Ha refresh_request w H)
    as [H1 Hresp].
  destruct (a refresh_request w)
    as [w1 [response | e | ]]; simpl in *.
  - specialize (Hresp response eq_refl). unfold honours in Hresp.
    simpl in Hresp. unfold token_payload_ok in Hresp.
    destruct (read_access_token (data response)) as [t | ]; simpl.
    + apply Inv_token_only; assumption.
    + apply Inv_logout.
  - apply Inv_logout.
  - exact H1.
Qed.

(** [login] and [register] differ in the endpoint and in the fallback
    message only; the same steps go through both. *)
Ltac session_call a Ha H request :=
  let H0 := fresh "H0" in
  let H1 := fresh "H1" in
  let Hresp := fresh "Hresp" in
  unfold bind, ret;
  assert (H0 : Inv with_setToken (setState loading _))
    by (apply Inv_frame; [reflexivity .. | exact H]);
  destruct (Ha request _ H0) as [H1 Hresp];
  destruct (a request (setState loading _)) as [? [response | ? | ]];
  simpl in *;
  [ specialize (Hresp response eq_refl);
    unfold honours in Hresp; simpl in Hresp;
    unfold session_payload_ok in Hresp;
    destruct (read_session (data response)) as [[? ?] | ]; simpl;
    [ apply andb_prop in Hresp; destruct Hresp;
      apply Inv_logged_in; assumption
    | apply Inv_logged_out; reflexivity ]
  | apply Inv_logged_out; reflexivity
  | exact H1 ].

Lemma Inv_login a email password w :
  api_spec with_setToken a ->
  Inv with_setToken w ->
  Inv with_setToken (fst (login a email password w)).
Proof.
  intros Ha H. rewrite login_unfold. unfold authService_login.
  session_call a Ha H
    (new_request "POST" "/auth/login"
       (VObj [("email", VStr email); ("password", VStr password)])).
Qed.

Lemma Inv_register a email password name w :
  api_spec with_setToken a ->
  Inv with_setToken w ->
  Inv with_setToken (fst (register a email password name w)).
Proof.
  intros Ha H. rewrite register_unfold. unfold authService_register.
  session_call a Ha H
    (new_request "POST" "/auth/register"
       (VObj [("email", VStr email); ("password", VStr password);
              ("name", name)])).
Qed.

Lemma url_request_interceptor config w :
  url (request_interceptor config w) = url config.
Proof.
  unfold request_interceptor. destruct (truthy (token (store w))); reflexivity.
Qed.

Lemma api_spec_response_rejected a config response w :
  api_spec with_setToken a ->
  Inv with_setToken w ->
  Inv with_setToken
    (fst (response_rejected a (AxiosError config response) w)) /\
  (forall r,
     snd (response_rejected a (AxiosError config response) w) = Resolved r ->
     honours (url config) (data r) = true).
Proof.
  intros Ha H. rewrite response_rejected_unfold.
  destruct (is_401 response && negb (_retry config)).
  - pose proof (Inv_refreshToken Ha H) as H1.
    destruct (refreshToken a w) as [w1 [[] | e | ]]; simpl in H1.
    + apply (Ha (with_Authorization (bearer (token (store w1)))
                   (mark_retry config)) w1 H1).
    + split; [apply Inv_logout | intros r Hr; discriminate Hr].
    + split; [exact H1 | intros r Hr; discriminate Hr].
  - split; [exact H | intros r Hr; discriminate Hr].
Qed.

(** The axios instance keeps the invariant, at every fuel and also when
    the fuel runs out, and what it resolves with honours the contract. *)
Lemma api_spec_api fuel : api_spec with_setToken (api network fuel).
Proof.
  induction fuel as [ | fuel IH]; intros config w H.
  - split; [exact H | intros r Hr; discriminate Hr].
  - simpl.
    pose proof (Inv_dispatch (request_interceptor config w) H) as H1.
    pose proof (result_dispatch (request_interceptor config w) w) as Hres.
    destruct (dispatch network (request_interceptor config w) w) as [w1 r].
    simpl in H1, Hres. unfold settle.
    destruct r as [response | ].
    + destruct (validateStatus (status response)) eqn:Hv.
      * split; [exact H1 | ].
        intros r Hr. injection Hr as <-.
        rewrite <- (url_request_interceptor config w).
        apply (contract (server w)); [symmetry; exact Hres | exact Hv].
      * rewrite <- (url_request_interceptor config w).
        apply api_spec_response_rejected; assumption.
    + rewrite <- (url_request_interceptor config w).
      apply api_spec_response_rejected; assumption.
Qed.

Lemma Inv_run fuel op w :
  allowed with_setToken op = true ->
  Inv with_setToken w -> Inv with_setToken (fst (run network fuel op w)).
Proof.
  pose proof (api_spec_api fuel) as Ha.
  destruct op; simpl; intros Hop H.
  - apply Inv_login; assumption.
  - apply Inv_register; assumption.
  - apply Inv_logout.
  - apply Inv_refreshToken; assumption.
  - apply Inv_frame; [reflexivity .. | exact H].
  - apply Inv_setUser; [reflexivity | exact H].
  - apply Inv_setToken. exact Hop.
  - apply Inv_restart, H.
Qed.

Lemma Inv_start (srv : Server) : Inv with_setToken (start srv).
Proof.
  split; [ | intros q Hq; discriminate Hq].
  intros Hauth. discriminate Hauth.
Qed.

Lemma Inv_reachable w :
  reachable network (allowed with_setToken) w -> Inv with_setToken w.
Proof.
  induction 1 as [srv | w fuel op Hw IH Hop].
  - apply Inv_start.
  - apply Inv_run; assumption.
Qed.

(** C3, as the code has it.  In every world reached from the first start
    by the operations of the store and by restarts, with a service that
    keeps to its contract, [isAuthenticated == true] implies that the token
    is present; it implies that the user is present as well when
    [setToken] is not among the operations used (neither in the sequence
    nor by a task that runs meanwhile). *)
Theorem authenticated_session_has_token_and_user w :
  reachable network (allowed with_setToken) w ->
  isAuthenticated (store w) = true ->
  present (token (store w)) = true /\
  (with_setToken = false -> present (user (store w)) = true).
Proof. intros Hw. exact (proj1 (Inv_reachable Hw)). Qed.

End Invariant.

(** C3 as stated does not hold: [setToken] on the logged-out store sets
    [isAuthenticated] with a token and without a user. *)
Lemma setToken_authenticates_without_user :
  let w := fst (run rejecting 0 (OpSetToken "T") (start tt)) in
  reachable rejecting (fun _ => true) w /\
  isAuthenticated (store w) = true /\
  present (token (store w)) = true /\
  present (user (store w)) = false.
Proof.
  cbv zeta. split; [ | repeat split].
  apply reachable_step; [apply reachable_start | reflexivity].
Qed.

Lemma honest_contract srv config response :
  result (snd (honest srv config)) = Some response ->
  validateStatus (status response) = true ->
  honours (url config) (data response) = true.
Proof.
  unfold honest, honours. simpl.
  destruct (String.eqb (url config) "/auth/login"
            || String.eqb (url config) "/auth/register").
  - intros H _. injection H as <-. reflexivity.
  - destruct (String.eqb (url config) "/auth/refresh").
    + intros H _. injection H as <-. reflexivity.
    + reflexivity.
Qed.

Lemma honest_meanwhile b srv config :
  forallb (tolerated b) (meanwhile (snd (honest srv config))) = true.
Proof.
  unfold honest. simpl.
  destruct (String.eqb (url config) "/auth/login"
            || String.eqb (url config) "/auth/register"); [reflexivity | ].
  destruct (String.eqb (url config) "/auth/refresh"); [reflexivity | ].
  destruct (Authorization (headers config)) as [h | ]; [ | reflexivity].
  destruct (String.eqb h "Bearer T2"); reflexivity.
Qed.

(** The session reached by a login and a refresh against the honest
    service. *)
Lemma authenticated_session_has_token_and_user_witness :
  let w1 := fst (run honest 1 (OpLogin "a@x.com" "pw") (start tt)) in
  let w2 := fst (run honest 1 OpRefreshToken w1) in
  isAuthenticated (store w2) = true /\
  token (store w2) = VStr "T2" /\
  present (token (store w2)) = true /\
  present (user (store w2)) = true.
Proof.
  cbv zeta.
  assert (Hreach :
    reachable honest (allowed false)
      (fst (run honest 1 OpRefreshToken
              (fst (run honest 1 (OpLogin "a@x.com" "pw") (start tt)))))).
  { apply reachable_step; [ | reflexivity].
    apply reachable_step; [apply reachable_start | reflexivity]. }
  destruct (authenticated_session_has_token_and_user
              honest_contract (honest_meanwhile false) Hreach eq_refl)
    as [Ht Hu].
  split; [reflexivity | split; [reflexivity | split; [exact Ht | ]]].
  exact (Hu eq_refl).
Defined.

(* ================================================================== *)
(** ** The other paths of the gateway *)

Section GatewayPaths.

Variable Server : Type.
Variable network : Server -> Request -> Server * Reply.
Implicit Type w : World Server.

Lemma settled_not_Pending config r : settled config r <> Pending.
Proof.
  unfold settled. destruct (settle config r); intros H; discriminate H.
Qed.

Lemma api_unfold fuel config w :
  api network (S fuel) config w =
  let (w1, r) := dispatch network (request_interceptor config w) w in
  match settle (request_interceptor config w) r with
  | inl response => (w1, Resolved response)
  | inr e => response_rejected (api network fuel) e w1
  end.
Proof. reflexivity. Qed.

Lemma api_not_intercepted fuel config w w1 r :
  dispatch network (request_interceptor config w) w = (w1, r) ->
  is_401 r && negb (_retry config) = false ->
  api network (S fuel) config w
    = (w1, settled (request_interceptor config w) r).
Proof.
  intros Hd Hpass. rewrite api_unfold, Hd. unfold settled.
  destruct (settle (request_interceptor config w) r) as [response | e] eqn:Hs;
    [reflexivity | ].
  assert (He : e = AxiosError (request_interceptor config w) r).
  { unfold settle in Hs. destruct r as [response | ].
    - destruct (validateStatus (status response)); inversion Hs; reflexivity.
    - inversion Hs; reflexivity. }
  subst e. rewrite response_rejected_unfold, retry_request_interceptor, Hpass.
  reflexivity.
Qed.

(** Step 4 of the interceptor: whatever is not a 401 on an unmarked
    request goes to the caller as the wire gave it.  One request is on the
    wire, no refresh is tried, and the gateway itself leaves store and
    snapshot alone (they change only by what other tasks did meanwhile). *)
Theorem api_passes_through fuel config w w1 r :
  dispatch network (request_interceptor config w) w = (w1, r) ->
  is_401 r && negb (_retry config) = false ->
  api network (S fuel) config w
    = (w1, settled (request_interceptor config w) r) /\
  sent w1 = (sent w ++ [request_interceptor config w])%list /\
  (meanwhile (snd (network (server w) (request_interceptor config w))) = [] ->
   store w1 = store w /\ localStorage w1 = localStorage w).
Proof.
  intros Hd Hpass. split; [ | split].
  - apply api_not_intercepted; assumption.
  - exact (sent_dispatch _ _ _ Hd).
  - intros Hquiet. unfold dispatch in Hd.
    destruct (network (server w) (request_interceptor config w)) as [srv reply].
    simpl in Hquiet. rewrite Hquiet in Hd. simpl in Hd.
    inversion Hd; subst. split; reflexivity.
Qed.

(** When the refresh call of the retry protocol fails (an answer outside
    200..299 that is no 401, or no answer), the request is not resent: the
    wire has seen the request and the refresh call, the session is logged
    out with its snapshot erased, and the caller gets the rejection of the
    refresh call. *)
Theorem retry_with_failed_refresh fuel config w w1 resp1 w2 r2 :
  _retry config = false ->
  dispatch network (request_interceptor config w) w = (w1, Some resp1) ->
  status resp1 = 401%Z ->
  truthy (token (store w1)) = true ->
  dispatch network (request_interceptor refresh_request w1) w1 = (w2, r2) ->
  is_401 r2 = false ->
  (forall resp2, r2 = Some resp2 -> validateStatus (status resp2) = false) ->
  let first := request_interceptor config w in
  let refresh := request_interceptor refresh_request w1 in
  api network (S (S fuel)) config w
    = (logout w2, Rejected (AxiosError refresh r2)) /\
  store (logout w2) = initialState /\
  localStorage (logout w2) = None /\
  sent (logout w2) = (sent w ++ [first; refresh])%list.
Proof.
  intros Hretry Hd1 H401 Hheld Hd2 Hno401 Hfail first refresh.
  split; [ | split; [reflexivity | split; [reflexivity | ]]].
  - rewrite api_unfold, Hd1. unfold settle at 1.
    assert (Hv : validateStatus (status resp1) = false)
      by (rewrite H401; reflexivity).
    rewrite Hv, response_rejected_unfold.
    assert (H1 : is_401 (Some resp1) = true)
      by (simpl; rewrite H401; reflexivity).
    rewrite H1, retry_request_interceptor, Hretry. cbn [negb andb].
    rewrite refreshToken_unfold, Hheld.
    unfold authService_refreshToken, bind, ret.
    rewrite (api_not_intercepted fuel refresh_request w1 Hd2)
      by (rewrite Hno401; reflexivity).
    unfold settled, settle.
    destruct r2 as [resp2 | ].
    + rewrite (Hfail resp2 eq_refl). reflexivity.
    + reflexivity.
  - simpl. rewrite (sent_dispatch _ _ _ Hd2), (sent_dispatch _ _ _ Hd1).
    rewrite <- app_assoc. reflexivity.
Qed.

(** A refresh call that is answered with a success whose body holds no
    readable [data.access_token] (the body is null, or has no [data]) is a
    failed refresh all the same: logout, no resend, and the caller gets the
    [TypeError] of the read. *)
Theorem retry_with_unreadable_refresh fuel config w w1 resp1 w2 resp2 :
  _retry config = false ->
  dispatch network (request_interceptor config w) w = (w1, Some resp1) ->
  status resp1 = 401%Z ->
  truthy (token (store w1)) = true ->
  dispatch network (request_interceptor refresh_request w1) w1
    = (w2, Some resp2) ->
  validateStatus (status resp2) = true ->
  read_access_token (data resp2) = None ->
  api network (S (S fuel)) config w = (logout w2, Rejected TypeError) /\
  store (logout w2) = initialState /\
  localStorage (logout w2) = None /\
  sent (logout w2)
    = (sent w ++ [request_interceptor config w;
                  request_interceptor refresh_request w1])%list.
Proof.
  intros Hretry Hd1 H401 Hheld Hd2 Hok Hread.
  split; [ | split; [reflexivity | split; [reflexivity | ]]].
  - rewrite api_unfold, Hd1. unfold settle at 1.
    assert (Hv : validateStatus (status resp1) = false)
      by (rewrite H401; reflexivity).
    rewrite Hv, response_rejected_unfold.
    assert (H1 : is_401 (Some resp1) = true)
      by (simpl; rewrite H401; reflexivity).
    rewrite H1, retry_request_interceptor, Hretry. cbn [negb andb].
    rewrite refreshToken_unfold, Hheld.
    unfold authService_refreshToken, bind, ret.
    rewrite api_unfold, Hd2. unfold settle. rewrite Hok, Hread. reflexivity.
  - simpl. rewrite (sent_dispatch _ _ _ Hd2), (sent_dispatch _ _ _ Hd1).
    rewrite <- app_assoc. reflexivity.
Qed.

(** A 401 while the store holds no token: [refreshToken] resolves at once
    and no refresh call is made, yet the request is resent, once, with the
    header that the template literal makes of the absent token
    ([Bearer null] for [null]); the outcome of the resend is the result. *)
Theorem retry_with_no_token fuel config w w1 resp1 w3 r3 :
  _retry config = false ->
  dispatch network (request_interceptor config w) w = (w1, Some resp1) ->
  status resp1 = 401%Z ->
  truthy (token (store w1)) = false ->
  let first := request_interceptor config w in
  let resend :=
    with_Authorization (bearer (token (store w1))) (mark_retry first) in
  dispatch network resend w1 = (w3, r3) ->
  api network (S (S fuel)) config w = (w3, settled resend r3) /\
  sent w3 = (sent w ++ [first; resend])%list /\
  (token (store w1) = VNull ->
   Authorization (headers resend) = Some "Bearer null").
Proof.
  intros Hretry Hd1 H401 Hnone first resend Hd3.
  split; [ | split].
  - rewrite api_unfold, Hd1. unfold settle at 1.
    assert (Hv : validateStatus (status resp1) = false)
      by (rewrite H401; reflexivity).
    rewrite Hv, response_rejected_unfold.
    assert (H1 : is_401 (Some resp1) = true)
      by (simpl; rewrite H401; reflexivity).
    rewrite H1, retry_request_interceptor, Hretry. cbn [negb andb].
    rewrite refreshToken_unfold, Hnone.
    rewrite (@api_retried _ network fuel _ _ w3 r3).
    + rewrite request_interceptor_resend by reflexivity. reflexivity.
    + reflexivity.
    + rewrite request_interceptor_resend by reflexivity. exact Hd3.
  - rewrite (sent_dispatch _ _ _ Hd3), (sent_dispatch _ _ _ Hd1).
    rewrite <- app_assoc. reflexivity.
  - intros Hnull. unfold resend. rewrite Hnull. reflexivity.
Qed.

End GatewayPaths.

(** *** When the gateway settles *)

Section Settling.

Variable Server : Type.
Variable network : Server -> Request -> Server * Reply.
Implicit Type w : World Server.

(** The service never answers a refresh call with a 401. *)
Hypothesis refresh_never_401 :
  forall srv config response,
    url config = "/auth/refresh" ->
    result (snd (network srv config)) = Some response ->
    status response <> 401%Z.

Lemma resend_settles fuel config w :
  _retry config = true ->
  snd (api network (S fuel) config w) <> Pending /\
  length (sent (fst (api network (S fuel) config w))) = length (sent w) + 1.
Proof.
  intros Hretry.
  destruct (dispatch network (request_interceptor config w) w) as [w' r] eqn:Hd.
  rewrite (api_retried network fuel config w Hretry Hd). simpl. split.
  - apply settled_not_Pending.
  - rewrite (sent_dispatch _ _ _ Hd), length_app. reflexivity.
Qed.

Lemma refresh_call_passes fuel w :
  exists w2 r2,
    dispatch network (request_interceptor refresh_request w) w = (w2, r2) /\
    api network (S fuel) refresh_request w
      = (w2, settled (request_interceptor refresh_request w) r2).
Proof.
  destruct (dispatch network (request_interceptor refresh_request w) w)
    as [w2 r2] eqn:Hd.
  exists w2, r2. split; [reflexivity | ].
  apply (api_not_intercepted network fuel refresh_request w Hd).
  replace (is_401 r2) with false; [reflexivity | ].
  pose proof (result_dispatch network (request_interceptor refresh_request w) w)
    as Hres.
  rewrite Hd in Hres. simpl in Hres.
  destruct r2 as [resp2 | ]; [ | reflexivity].
  simpl. symmetry. apply Z.eqb_neq.
  apply (refresh_never_401 (server w) (request_interceptor refresh_request w)).
  - apply url_request_interceptor.
  - symmetry. exact Hres.
Qed.

Lemma refreshToken_settles fuel w :
  snd (refreshToken (api network (S fuel)) w) <> Pending /\
  length (sent w) <= length (sent (fst (refreshToken (api network (S fuel)) w)))
    <= length (sent w) + 1.
Proof.
  rewrite refreshToken_unfold.
  destruct (truthy (token (store w))).
  - unfold authService_refreshToken, bind, ret.
    destruct (refresh_call_passes fuel w) as (w2 & r2 & Hd & Hcall).
    rewrite Hcall.
    pose proof (sent_dispatch _ _ _ Hd) as Hs.
    assert (Hlen : length (sent w2) = length (sent w) + 1)
      by (rewrite Hs, length_app; reflexivity).
    unfold settled.
    destruct (settle (request_interceptor refresh_request w) r2)
      as [response | e].
    + destruct (read_access_token (data response)); simpl;
        (split; [intros H; discriminate H | lia]).
    + simpl. split; [intros H; discriminate H | lia].
  - simpl. split; [intros H; discriminate H | lia].
Qed.

(** With a service that never answers a refresh call with a 401, every
    request settles within two nested calls: the promise of [api] is
    resolved or rejected, never left pending, after at least one and at
    most three requests on the wire (the request, one refresh call, one
    resend). *)
Theorem api_settles fuel config w :
  snd (api network (S (S fuel)) config w) <> Pending /\
  length (sent w) + 1
    <= length (sent (fst (api network (S (S fuel)) config w)))
    <= length (sent w) + 3.
Proof.
  destruct (dispatch network (request_interceptor config w) w)
    as [w1 r1] eqn:Hd1.
  pose proof (sent_dispatch _ _ _ Hd1) as Hs1.
  assert (Hlen1 : length (sent w1) = length (sent w) + 1)
    by (rewrite Hs1, length_app; reflexivity).
  destruct (is_401 r1 && negb (_retry config)) eqn:E.
  - rewrite api_unfold, Hd1.
    assert (Hr : settle (request_interceptor config w) r1
                 = inr (AxiosError (request_interceptor config w) r1)).
    { apply andb_prop in E. destruct E as [E _].
      destruct r1 as [resp1 | ]; [ | discriminate E].
      simpl in E. apply Z.eqb_eq in E. unfold settle. rewrite E. reflexivity. }
    rewrite Hr, response_rejected_unfold, retry_request_interceptor, E.
    destruct (refreshToken_settles fuel w1) as [Hnp Hlen].
    destruct (refreshToken (api network (S fuel)) w1) as [w2 [[] | e | ]];
      simpl in Hnp, Hlen.
    + destruct (resend_settles fuel
                  (with_Authorization (bearer (token (store w2)))
                     (mark_retry (request_interceptor config w))) w2 eq_refl)
        as [Hnp3 Hlen3].
      split; [exact Hnp3 | lia].
    + simpl. split; [intros H; discriminate H | lia].
    + contradiction Hnp. reflexivity.
  - rewrite (api_not_intercepted network (S fuel) config w Hd1 E).
    simpl. split; [apply settled_not_Pending | lia].
Qed.

End Settling.

(* ================================================================== *)
(** ** More on login and register *)

Section SessionCalls.

Variable Server : Type.
Variable api : Request -> M Server Response.
Implicit Type w : World Server.

Lemma truthy_or_else a b : truthy b = true -> truthy (or_else a b) = true.
Proof.
  intros Hb. unfold or_else. destruct (truthy a) eqn:Ha; assumption.
Qed.

(** [register] has the contract of [login], on the registration endpoint
    and with its own fallback message.  A response with the payload in
    its [data] member leaves the store logged in with that user and
    token; a rejection of the service goes on to the caller unchanged;
    and every rejection of [register] leaves the session cleared, with
    the [detail] of the response as the error when there is a truthy one
    (a non-empty string in particular), and 'Registration failed' when
    there is none. *)
Theorem register_contract email password name w :
  (forall w1 response payload u t,
     authService_register api email password name (setState loading w)
       = (w1, Resolved response) ->
     prop response "data" = VObj payload ->
     lookup "user" payload = Some u ->
     lookup "access_token" payload = Some t ->
     register api email password name w
       = (setState (logged_in u t) w1, Resolved tt)) /\
  (forall w1 e,
     authService_register api email password name (setState loading w)
       = (w1, Rejected e) ->
     snd (register api email password name w) = Rejected e) /\
  (forall w' e,
     register api email password name w = (w', Rejected e) ->
     user (store w') = VNull /\
     token (store w') = VNull /\
     isAuthenticated (store w') = false /\
     isLoading (store w') = false /\
     (truthy (detail e) = true -> error (store w') = detail e) /\
     (truthy (detail e) = false ->
      error (store w') = VStr "Registration failed") /\
     (forall config response fields message,
        e = AxiosError config (Some response) ->
        data response = VObj fields ->
        lookup "detail" fields = Some (VStr message) ->
        message <> "" ->
        error (store w') = VStr message) /\
     (forall config,
        e = AxiosError config None ->
        error (store w') = VStr "Registration failed") /\
     (forall config response,
        e = AxiosError config (Some response) ->
        nullish (data response) = true \/
        (exists fields,
           data response = VObj fields /\
           (lookup "detail" fields = None \/
            lookup "detail" fields = Some (VStr ""))) ->
        error (store w') = VStr "Registration failed") /\
     (e = TypeError -> error (store w') = VStr "Registration failed")).
Proof.
  split; [ | split].
  - intros w1 response payload u t Hcall Hdata Hu Ht.
    rewrite register_unfold, Hcall, (read_session_payload _ Hdata).
    unfold prop. rewrite Hu, Ht. reflexivity.
  - intros w1 e Hcall. rewrite register_unfold, Hcall. reflexivity.
  - intros w' e Hrun.
    assert (H : store w'
                = {| user := VNull; token := VNull; isAuthenticated := false;
                     isLoading := false;
                     error := if truthy (detail e) then detail e
                              else VStr "Registration failed" |}).
    { rewrite register_unfold in Hrun.
      destruct (authService_register api email password name
                  (setState loading w)) as [w1 [response | e1 | ]].
      - destruct (read_session response) as [[u t] | ];
          inversion Hrun; subst; reflexivity.
      - inversion Hrun; subst. reflexivity.
      - inversion Hrun. }
    rewrite H. cbn [user token isAuthenticated isLoading error].
    repeat (split; [reflexivity | ]).
    split; [intros Ht; rewrite Ht; reflexivity | ].
    split; [intros Ht; rewrite Ht; reflexivity | ].
    split.
    + intros config response fields message -> Hd Hl Hne.
      simpl. unfold opt_member. rewrite Hd. simpl. rewrite Hl. simpl.
      destruct (String.eqb message "") eqn:E; [ | reflexivity].
      apply String.eqb_eq in E. contradiction.
    + split; [intros config ->; reflexivity | ].
      split; [ | intros ->; reflexivity].
      intros config response -> [Hn | (fields & Hd & [Hl | Hl])];
        simpl; unfold opt_member.
      * rewrite Hn. reflexivity.
      * rewrite Hd. simpl. rewrite Hl. reflexivity.
      * rewrite Hd. simpl. rewrite Hl. reflexivity.
Qed.

(** Once [login] or [register] has settled, the loading flag is down;
    the session is authenticated exactly when the call resolved, then with
    no error; and after a rejection the stored error is never empty, so
    that a caller can test it for truth. *)
Theorem session_call_settled (call : M Server unit) w w' r :
  (exists email password, call = login api email password) \/
  (exists email password name, call = register api email password name) ->
  call w = (w', r) ->
  r <> Pending ->
  isLoading (store w') = false /\
  (isAuthenticated (store w') = true <-> r = Resolved tt) /\
  (r = Resolved tt -> error (store w') = VNull) /\
  (forall e, r = Rejected e -> truthy (error (store w')) = true).
Proof.
  intros [(email & password & ->) | (email & password & name & ->)].
  - rewrite login_unfold.
    destruct (authService_login api email password (setState loading w))
      as [w1 [response | e1 | ]].
    + destruct (read_session response) as [[u t] | ]; intros H Hnp;
        inversion H; subst; simpl; repeat split; intros;
        try reflexivity; try discriminate.
    + intros H Hnp. inversion H; subst. simpl.
      repeat split; intros; try reflexivity; try discriminate.
      apply truthy_or_else. reflexivity.
    + intros H Hnp. inversion H; subst. contradiction Hnp. reflexivity.
  - rewrite register_unfold.
    destruct (authService_register api email password name (setState loading w))
      as [w1 [response | e1 | ]].
    + destruct (read_session response) as [[u t] | ]; intros H Hnp;
        inversion H; subst; simpl; repeat split; intros;
        try reflexivity; try discriminate.
    + intros H Hnp. inversion H; subst. simpl.
      repeat split; intros; try reflexivity; try discriminate.
      apply truthy_or_else. reflexivity.
    + intros H Hnp. inversion H; subst. contradiction Hnp. reflexivity.
Qed.

(** The error message of a failed login, case by case: the fallback when
    the request failed without a response, when the body of the response
    is null or has no [detail], and when the [detail] is the empty string;
    the [detail] itself when it is a non-empty string. *)
Theorem login_error_message email password w w' e :
  login api email password w = (w', Rejected e) ->
  (forall config, e = AxiosError config None ->
     error (store w') = VStr "Login failed") /\
  (e = TypeError -> error (store w') = VStr "Login failed") /\
  (forall config response,
     e = AxiosError config (Some response) ->
     (nullish (data response) = true ->
      error (store w') = VStr "Login failed") /\
     (forall fields,
        data response = VObj fields -> lookup "detail" fields = None ->
        error (store w') = VStr "Login failed") /\
     (forall fields,
        data response = VObj fields ->
        lookup "detail" fields = Some (VStr "") ->
        error (store w') = VStr "Login failed") /\
     (forall fields message,
        data response = VObj fields ->
        lookup "detail" fields = Some (VStr message) ->
        message <> "" ->
        error (store w') = VStr message)).
Proof.
  intros Hrun.
  assert (Herr : error (store w') = or_else (detail e) (VStr "Login failed")).
  { rewrite login_unfold in Hrun.
    destruct (authService_login api email password (setState loading w))
      as [w1 [response | e1 | ]].
    - destruct (read_session response) as [[u t] | ];
        inversion Hrun; subst; reflexivity.
    - inversion Hrun; subst. reflexivity.
    - inversion Hrun. }
  rewrite Herr. split; [ | split].
  - intros config ->. reflexivity.
  - intros ->. reflexivity.
  - intros config response ->. simpl. unfold opt_member.
    split; [ | split; [ | split]].
    + intros Hn. rewrite Hn. reflexivity.
    + intros fields Hd Hl. rewrite Hd. simpl. rewrite Hl. reflexivity.
    + intros fields Hd Hl. rewrite Hd. simpl. rewrite Hl. reflexivity.
    + intros fields message Hd Hl Hne. rewrite Hd. simpl. rewrite Hl.
      unfold or_else. simpl.
      destruct (String.eqb message "") eqn:E; [ | reflexivity].
      apply String.eqb_eq in E. contradiction.
Qed.

(** What the public-only guard shows around a login: the children (the
    form) after a rejected login, a redirect to the dashboard after a
    resolved one; and the children after any logout. *)
Theorem PublicRoute_around_login email password w w' r :
  login api email password w = (w', r) ->
  (r = Resolved tt -> PublicRoute (store w') = Navigate "/dashboard" true) /\
  (forall e, r = Rejected e -> PublicRoute (store w') = Children) /\
  PublicRoute (store (logout w')) = Children.
Proof.
  intros Hrun. rewrite login_unfold in Hrun.
  split; [ | split; [ | reflexivity]].
  - intros ->.
    destruct (authService_login api email password (setState loading w))
      as [w1 [response | e1 | ]].
    + destruct (read_session response) as [[u t] | ];
        inversion Hrun; subst; reflexivity.
    + inversion Hrun.
    + inversion Hrun.
  - intros e ->.
    destruct (authService_login api email password (setState loading w))
      as [w1 [response | e1 | ]].
    + destruct (read_session response) as [[u t] | ];
        inversion Hrun; subst; reflexivity.
    + inversion Hrun; subst. reflexivity.
    + inversion Hrun.
Qed.

End SessionCalls.

(* ================================================================== *)
(** ** What every operation preserves *)

(** A property of the world that [set], [logout] and the bookkeeping of the
    wire keep is kept by everything the store and the gateway do, since
    they change the world through these only. *)
Section Preservation.

Variable Server : Type.
Variable network : Server -> Request -> Server * Reply.
Variable P : World Server -> Prop.
Implicit Type w : World Server.

Hypothesis P_setState : forall p w, P w -> P (setState p w).
Hypothesis P_logout : forall w, P w -> P (logout w).
Hypothesis P_wire :
  forall w srv log, P w -> P (mkWorld (store w) (localStorage w) srv log).
Hypothesis P_restart : forall w, P w -> P (restart w).

Lemma P_perform a w : P w -> P (perform a w).
Proof.
  destruct a; simpl; intros H;
    [apply P_logout | apply P_setState ..]; exact H.
Qed.

Lemma P_perform_all actions w :
  P w -> P (fold_left (fun w' a => perform a w') actions w).
Proof.
  revert w. induction actions as [ | a actions IH]; intros w H; simpl.
  - exact H.
  - apply IH, P_perform, H.
Qed.

Lemma P_dispatch config w : P w -> P (fst (dispatch network config w)).
Proof.
  intros H. unfold dispatch.
  destruct (network (server w) config) as [srv reply]. simpl.
  apply P_perform_all, P_wire, H.
Qed.

Section Calls.

Variable a : Request -> M Server Response.
Hypothesis P_a : forall config w, P w -> P (fst (a config w)).

Lemma P_refreshToken w : P w -> P (fst (refreshToken a w)).
Proof.
  intros H. rewrite refreshToken_unfold.
  destruct (truthy (token (store w))); [ | exact H].
  unfold authService_refreshToken, bind, ret.
  pose proof (P_a refresh_request H) as H1.
  destruct (a refresh_request w) as [w1 [response | e | ]]; simpl in *.
  - destruct (read_access_token (data response)); simpl;
      [apply P_setState | apply P_logout]; exact H1.
  - apply P_logout, H1.
  - exact H1.
Qed.

Lemma P_response_rejected e w : P w -> P (fst (response_rejected a e w)).
Proof.
  intros H. destruct e as [config response | ]; [ | exact H].
  rewrite response_rejected_unfold.
  destruct (is_401 response && negb (_retry config)); [ | exact H].
  pose proof (P_refreshToken H) as H1.
  destruct (refreshToken a w) as [w1 [[] | e | ]]; simpl in H1.
  - apply P_a, H1.
  - apply P_logout, H1.
  - exact H1.
Qed.

Lemma P_login email password w : P w -> P (fst (login a email password w)).
Proof.
  intros H. rewrite login_unfold. unfold authService_login, bind, ret.
  match goal with
  | |- context [a ?c (setState loading w)] =>
      pose proof (P_a c (P_setState loading H)) as H1;
      destruct (a c (setState loading w)) as [w1 [response | e | ]]
  end; simpl in *.
  - destruct (read_session (data response)) as [[u t] | ]; simpl;
      apply P_setState, H1.
  - apply P_setState, H1.
  - exact H1.
Qed.

Lemma P_register email password name w :
  P w -> P (fst (register a email password name w)).
Proof.
  intros H. rewrite register_unfold. unfold authService_register, bind, ret.
  match goal with
  | |- context [a ?c (setState loading w)] =>
      pose proof (P_a c (P_setState loading H)) as H1;
      destruct (a c (setState loading w)) as [w1 [response | e | ]]
  end; simpl in *.
  - destruct (read_session (data response)) as [[u t] | ]; simpl;
      apply P_setState, H1.
  - apply P_setState, H1.
  - exact H1.
Qed.

End Calls.

Lemma P_api fuel config w : P w -> P (fst (api network fuel config w)).
Proof.
  revert config w. induction fuel as [ | fuel IH]; intros config w H.
  - exact H.
  - rewrite api_unfold.
    pose proof (P_dispatch (request_interceptor config w) H) as H1.
    destruct (dispatch network (request_interceptor config w) w) as [w1 r].
    simpl in H1.
    destruct (settle (request_interceptor config w) r) as [response | e].
    + exact H1.
    + apply P_response_rejected; [exact IH | exact H1].
Qed.

Lemma P_run fuel op w : P w -> P (fst (run network fuel op w)).
Proof.
  intros H. destruct op; simpl.
  - apply P_login; [apply P_api | exact H].
  - apply P_register; [apply P_api | exact H].
  - apply P_logout, H.
  - apply P_refreshToken; [apply P_api | exact H].
  - apply P_setState, H.
  - apply P_setState, H.
  - apply P_setState, H.
  - apply P_restart, H.
Qed.

Lemma P_reachable allowed w :
  (forall srv, P (start srv)) -> reachable network allowed w -> P w.
Proof.
  intros Hstart. induction 1 as [srv | w fuel op Hw IH Hop].
  - apply Hstart.
  - apply P_run, IH.
Qed.

End Preservation.

Lemma in_sync_setState {Server} p (w : World Server) : in_sync (setState p w).
Proof. repeat split. Qed.

Lemma in_sync_logout {Server} (w : World Server) : in_sync (logout w).
Proof. repeat split. Qed.

Lemma in_sync_wire {Server} (w : World Server) (srv : Server) log :
  in_sync w -> in_sync (mkWorld (store w) (localStorage w) srv log).
Proof.
  cbv delta [in_sync] beta. unfold restart. simpl.
  destruct (localStorage w); intros H; exact H.
Qed.

Lemma in_sync_restart {Server} (w : World Server) :
  in_sync w -> in_sync (restart w).
Proof.
  cbv delta [in_sync] beta. unfold restart.
  destruct (localStorage w) as [item | ]; simpl; intros (Hu & Ht & Ha).
  - rewrite Hu at 2. rewrite Ht at 2. rewrite !rehydrated_idempotent.
    split; [exact Hu | split; [exact Ht | reflexivity]].
  - repeat split.
Qed.

Lemma in_sync_reachable {Server}
    (network : Server -> Request -> Server * Reply) allowed w :
  reachable network allowed w -> in_sync w.
Proof.
  apply P_reachable.
  - intros p w0 _. apply in_sync_setState.
  - intros w0 _. apply in_sync_logout.
  - intros w0 srv log H. apply in_sync_wire, H.
  - intros w0 H. apply in_sync_restart, H.
  - intros srv. repeat split.
Qed.

Lemma restart_item {Server} (w : World Server) :
  localStorage (restart w) = localStorage w.
Proof. unfold restart. destruct (localStorage w); reflexivity. Qed.

(** In every world reached from the first start by operations of the
    store (all of them, against any service and with any tasks running
    meanwhile), the storage item holds what JSON carries of the store: a
    restart brings back the same [isAuthenticated], and the user and the
    token as they come back from JSON, which is as they were when they
    hold no [undefined], and [null] for an [undefined] one.  The restart
    leaves the item as it is, so that a second restart changes nothing;
    and a restart after a logout starts logged out. *)
Theorem restart_keeps_session {Server}
    (network : Server -> Request -> Server * Reply) allowed w :
  reachable network allowed w ->
  user (store (restart w)) = rehydrated (user (store w)) /\
  token (store (restart w)) = rehydrated (token (store w)) /\
  isAuthenticated (store (restart w)) = isAuthenticated (store w) /\
  (is_json (user (store w)) = true ->
   user (store (restart w)) = user (store w)) /\
  (is_json (token (store w)) = true ->
   token (store (restart w)) = token (store w)) /\
  (user (store w) = VUndefined -> user (store (restart w)) = VNull) /\
  (token (store w) = VUndefined -> token (store (restart w)) = VNull) /\
  localStorage (restart w) = localStorage w /\
  store (restart (restart w)) = store (restart w) /\
  store (restart (logout w)) = initialState.
Proof.
  intros Hw. destruct (in_sync_reachable Hw) as (Hu & Ht & Ha).
  split; [exact Hu | split; [exact Ht | split; [exact Ha | ]]].
  split; [ | split; [ | split; [ | split; [ | split; [ | split]]]]].
  - intros H. rewrite Hu. apply rehydrated_is_json, H.
  - intros H. rewrite Ht. apply rehydrated_is_json, H.
  - intros H. rewrite Hu, H. reflexivity.
  - intros H. rewrite Ht, H. reflexivity.
  - apply restart_item.
  - unfold restart. destruct (localStorage w); reflexivity.
  - reflexivity.
Qed.

(* ================================================================== *)
(** ** The paths of the gateway and the session calls at concrete runs *)

(** A 500 goes to the caller as it came: one request, store untouched. *)
Lemma api_passes_through_witness :
  let w := world_T1 [answer 500 (VObj [("detail", VStr "boom")])] in
  let run := api scripted 1 get_jobs w in
  snd run
    = Rejected
        (AxiosError (with_Authorization "Bearer T1" get_jobs)
           (Some {| status := 500;
                    data := VObj [("detail", VStr "boom")] |})) /\
  sent (fst run) = [with_Authorization "Bearer T1" get_jobs] /\
  store (fst run) = session_T1.
Proof.
  cbv zeta.
  destruct (@api_passes_through _ scripted 0 get_jobs
              (world_T1 [answer 500 (VObj [("detail", VStr "boom")])])
              _ _ eq_refl eq_refl) as (Hrun & Hsent & Hquiet).
  rewrite Hrun. split; [reflexivity | split; [exact Hsent | ]].
  exact (proj1 (Hquiet eq_refl)).
Defined.

Lemma retry_with_failed_refresh_witness :
  let w := world_T1 [unauthorized; answer 500 (VObj [("detail", VStr "boom")])] in
  let run := api scripted 2 get_jobs w in
  snd run
    = Rejected
        (AxiosError (with_Authorization "Bearer T1" refresh_request)
           (Some {| status := 500;
                    data := VObj [("detail", VStr "boom")] |})) /\
  store (fst run) = initialState /\
  localStorage (fst run) = None /\
  sent (fst run)
    = [with_Authorization "Bearer T1" get_jobs;
       with_Authorization "Bearer T1" refresh_request].
Proof.
  cbv zeta.
  destruct (@retry_with_failed_refresh _ scripted 0 get_jobs
              (world_T1 [unauthorized;
                         answer 500 (VObj [("detail", VStr "boom")])])
              _ _ _ _ eq_refl eq_refl eq_refl eq_refl eq_refl eq_refl)
    as (Hrun & Hstore & Hls & Hsent).
  { intros resp2 H. injection H as <-. reflexivity. }
  rewrite Hrun. repeat split.
Defined.

Lemma retry_with_unreadable_refresh_witness :
  let w := world_T1 [unauthorized;
                     answer 200 (VObj [("access_token", VStr "T2")])] in
  let run := api scripted 2 get_jobs w in
  snd run = Rejected TypeError /\
  store (fst run) = initialState /\
  localStorage (fst run) = None /\
  length (sent (fst run)) = 2.
Proof.
  cbv zeta.
  destruct (@retry_with_unreadable_refresh _ scripted 0 get_jobs
              (world_T1 [unauthorized;
                         answer 200 (VObj [("access_token", VStr "T2")])])
              _ _ _ _ eq_refl eq_refl eq_refl eq_refl eq_refl eq_refl eq_refl)
    as (Hrun & Hstore & Hls & Hsent).
  rewrite Hrun. repeat split.
Defined.

Lemma retry_with_no_token_witness :
  let run := api scripted 2 get_jobs (start [unauthorized; jobs_reply]) in
  snd run = Resolved {| status := 200; data := VObj [("data", VArr [])] |} /\
  map (fun r => Authorization (headers r)) (sent (fst run))
    = [None; Some "Bearer null"].
Proof.
  cbv zeta.
  destruct (@retry_with_no_token _ scripted 0 get_jobs
              (start [unauthorized; jobs_reply])
              _ _ _ _ eq_refl eq_refl eq_refl eq_refl eq_refl)
    as (Hrun & Hsent & _).
  rewrite Hrun. split; reflexivity.
Defined.

Lemma honest_refresh_never_401 srv config response :
  url config = "/auth/refresh" ->
  result (snd (honest srv config)) = Some response ->
  status response <> 401%Z.
Proof.
  intros Hu. unfold honest. rewrite Hu. simpl.
  intros H. injection H as <-. simpl. discriminate.
Qed.

Lemma api_settles_witness :
  let run := api honest 2 get_jobs (world_T1 tt) in
  snd run <> Pending /\
  1 <= length (sent (fst run)) <= 3.
Proof.
  cbv zeta.
  exact (@api_settles _ honest honest_refresh_never_401 0 get_jobs
           (world_T1 tt)).
Defined.

(** A registration that goes through, one that the service turns down
    with a [detail], and one that gets no answer. *)
Lemma register_contract_witness :
  let taken :=
    answer 409 (VObj [("detail", VStr "Email already registered")]) in
  let accepted := register (api scripted 1) "b@x.com" "pw" (VStr "Bo")
                    (start [session_reply alice "T1"]) in
  let turned_down := register (api scripted 1) "b@x.com" "pw" (VStr "Bo")
                       (start [taken]) in
  let unanswered := register (api scripted 1) "b@x.com" "pw" (VStr "Bo")
                      (start []) in
  (snd accepted = Resolved tt /\
   user (store (fst accepted)) = alice /\
   token (store (fst accepted)) = VStr "T1" /\
   isAuthenticated (store (fst accepted)) = true) /\
  (isAuthenticated (store (fst turned_down)) = false /\
   error (store (fst turned_down)) = VStr "Email already registered") /\
  (isAuthenticated (store (fst unanswered)) = false /\
   error (store (fst unanswered)) = VStr "Registration failed").
Proof.
  cbv zeta. split; [ | split].
  - pose proof (proj1 (register_contract (api scripted 1) "b@x.com" "pw"
                         (VStr "Bo") (start [session_reply alice "T1"])))
      as H.
    rewrite (H _ _ _ _ _ eq_refl eq_refl eq_refl eq_refl).
    repeat split.
  - pose proof (proj2 (proj2 (register_contract (api scripted 1) "b@x.com"
                                "pw" (VStr "Bo")
                                (start [answer 409
                                          (VObj [("detail",
                                                  VStr "Email already registered")])]))))
      as H.
    specialize (H _ _ eq_refl).
    destruct H as (_ & _ & Ha & _ & _ & _ & Hmessage & _).
    split; [exact Ha | ].
    apply (Hmessage _ _ _ _ eq_refl eq_refl eq_refl).
    intros H. discriminate H.
  - pose proof (proj2 (proj2 (register_contract (api scripted 1) "b@x.com"
                                "pw" (VStr "Bo") (start []))))
      as H.
    specialize (H _ _ eq_refl).
    destruct H as (_ & _ & Ha & _ & _ & _ & _ & Hnone & _).
    split; [exact Ha | ]. exact (Hnone _ eq_refl).
Defined.

Lemma session_call_settled_witness :
  let run := register (api scripted 1) "b@x.com" "pw" VUndefined
               (start [answer 409 (VObj [("detail", VStr "")])]) in
  isLoading (store (fst run)) = false /\
  isAuthenticated (store (fst run)) = false /\
  error (store (fst run)) = VStr "Registration failed" /\
  truthy (error (store (fst run))) = true.
Proof.
  cbv zeta.
  destruct (@session_call_settled _ (api scripted 1)
              (register (api scripted 1) "b@x.com" "pw" VUndefined)
              (start [answer 409 (VObj [("detail", VStr "")])]) _ _
              (or_intror
                 (ex_intro _ "b@x.com"
                    (ex_intro _ "pw" (ex_intro _ VUndefined eq_refl))))
              eq_refl)
    as (Hload & _ & _ & Herr).
  { intros H. discriminate H. }
  split; [exact Hload | split; [reflexivity | split; [reflexivity | ]]].
  exact (Herr _ eq_refl).
Defined.

Lemma login_error_message_witness :
  let run := login (api scripted 2) "a@x.com" "bad" (start [denied]) in
  error (store (fst run)) = VStr "Login failed".
Proof.
  cbv zeta.
  destruct (@login_error_message _ (api scripted 2) "a@x.com" "bad"
              (start [denied]) _ _ eq_refl) as (Hnone & _).
  exact (Hnone _ eq_refl).
Defined.

Lemma PublicRoute_around_login_witness :
  let ok := login (api scripted 1) "a@x.com" "pw"
              (start [session_reply alice "T1"]) in
  let ko := login (api scripted 2) "a@x.com" "bad" (start [denied; denied]) in
  PublicRoute (store (fst ok)) = Navigate "/dashboard" true /\
  PublicRoute (store (fst ko)) = Children.
Proof.
  cbv zeta. split.
  - destruct (@PublicRoute_around_login _ (api scripted 1) "a@x.com" "pw"
                (start [session_reply alice "T1"]) _ _ eq_refl) as (H & _).
    exact (H eq_refl).
  - destruct (@PublicRoute_around_login _ (api scripted 2) "a@x.com" "bad"
                (start [denied; denied]) _ _ eq_refl) as (_ & H & _).
    exact (H _ eq_refl).
Defined.

(** A session that comes back as it was, a logout that stays one, and a
    token that was [undefined] and comes back as [null]. *)
Lemma restart_keeps_session_witness :
  let w1 := fst (run honest 1 (OpLogin "a@x.com" "pw") (start tt)) in
  let w2 := fst (run honest 1 OpLogout w1) in
  let w3 :=
    fst (run scripted 1 (OpLogin "a@x.com" "pw")
           (start [answer 200 (VObj [("data", VObj [("user", alice)])])])) in
  (user (store (restart w1)) = alice /\
   token (store (restart w1)) = VStr "T1" /\
   isAuthenticated (store (restart w1)) = true) /\
  isAuthenticated (store (restart w2)) = false /\
  (token (store w3) = VUndefined /\
   token (store (restart w3)) = VNull /\
   isAuthenticated (store (restart w3)) = true).
Proof.
  cbv zeta.
  assert (H1 : reachable honest (fun _ => true)
                 (fst (run honest 1 (OpLogin "a@x.com" "pw") (start tt)))).
  { apply reachable_step; [apply reachable_start | reflexivity]. }
  assert (H2 : reachable honest (fun _ => true)
                 (fst (run honest 1 OpLogout
                         (fst (run honest 1 (OpLogin "a@x.com" "pw")
                                 (start tt)))))).
  { apply reachable_step; [exact H1 | reflexivity]. }
  assert (H3 : reachable scripted (fun _ => true)
                 (fst (run scripted 1 (OpLogin "a@x.com" "pw")
                         (start [answer 200
                                   (VObj [("data",
                                           VObj [("user", alice)])])])))).
  { apply reachable_step; [apply reachable_start | reflexivity]. }
  destruct (restart_keeps_session H1) as (_ & _ & Ha1 & Hu1 & Ht1 & _).
  destruct (restart_keeps_session H2) as (_ & _ & Ha2 & _).
  destruct (restart_keeps_session H3) as (_ & _ & Ha3 & _ & _ & _ & Ht3 & _).
  split; [ | split].
  - split; [exact (Hu1 eq_refl) | split; [exact (Ht1 eq_refl) | ]].
    rewrite Ha1. reflexivity.
  - rewrite Ha2. reflexivity.
  - split; [reflexivity | split].
    + exact (Ht3 eq_refl).
    + rewrite Ha3. reflexivity.
Defined.

(* ================================================================== *)
(** ** Properties of the deployment script *)

Section DeployScript.

Import Deploy.

Variable ok : nat -> bool.
Variable env_file : string -> option (Vars -> Vars).
Variable version_now backup_now : string.

Lemma fail_stop_skip : fail_stop ok skip.
Proof.
  intros s Hs. split; simpl.
  - intros i Hi. apply Hs. lia.
  - exact Hs.
Qed.

Lemma fail_stop_exit1 : fail_stop ok exit1.
Proof.
  intros s Hs. split; simpl; [ | exact I].
  intros i Hi. apply Hs. lia.
Qed.

Lemma started_ok c s :
  (forall i, i < length (ran s) -> ok i = true) ->
  ok (length (ran s)) = true ->
  forall i, i < length (ran (started c s)) -> ok i = true.
Proof.
  intros Hs Hok i Hi. simpl in Hi. rewrite length_app in Hi. simpl in Hi.
  destruct (Nat.eq_dec i (length (ran s))) as [-> | Hne].
  - exact Hok.
  - apply Hs. lia.
Qed.

Lemma started_before c s :
  (forall i, i < length (ran s) -> ok i = true) ->
  forall i, S i < length (ran (started c s)) -> ok i = true.
Proof.
  intros Hs i Hi. simpl in Hi. rewrite length_app in Hi. simpl in Hi.
  apply Hs. lia.
Qed.

Lemma fail_stop_cmd c : fail_stop ok (cmd ok c).
Proof.
  intros s Hs. unfold cmd.
  destruct (ok (length (ran s))) eqn:Hok; split; simpl.
  - apply started_before, Hs.
  - apply started_ok; assumption.
  - apply started_before, Hs.
  - exists (ran s). split; [reflexivity | exact Hok].
Qed.

Lemma fail_stop_check c : fail_stop ok (check ok c).
Proof.
  intros s Hs. unfold check.
  destruct (ok (length (ran s))) eqn:Hok; split; simpl.
  - apply started_before, Hs.
  - apply started_ok; assumption.
  - apply started_before, Hs.
  - exact I.
Qed.

Lemma fail_stop_seq a b :
  fail_stop ok a -> fail_stop ok b -> fail_stop ok (seq a b).
Proof.
  intros Ha Hb s Hs. unfold seq.
  specialize (Ha s Hs). destruct (a s) as [s' [st | ]].
  - exact Ha.
  - apply Hb. exact (proj2 Ha).
Qed.

Lemma fail_stop_with_vars k :
  (forall v, fail_stop ok (k v)) -> fail_stop ok (with_vars k).
Proof. intros Hk s Hs. apply Hk, Hs. Qed.

Lemma fail_stop_if (b : bool) m1 m2 :
  fail_stop ok m1 -> fail_stop ok m2 -> fail_stop ok (if b then m1 else m2).
Proof. destruct b; auto. Qed.

Lemma fail_stop_assign f : fail_stop ok (assign f).
Proof.
  intros s Hs. split; simpl; [intros i Hi; apply Hs; lia | exact Hs].
Qed.

Ltac fail_stop :=
  repeat lazymatch goal with
    | |- fail_stop _ (seq _ _) => apply fail_stop_seq
    | |- fail_stop _ (cmd _ _) => apply fail_stop_cmd
    | |- fail_stop _ (check _ _) => apply fail_stop_check
    | |- fail_stop _ skip => apply fail_stop_skip
    | |- fail_stop _ exit1 => apply fail_stop_exit1
    | |- fail_stop _ (assign _) => apply fail_stop_assign
    | |- fail_stop _ (if _ then _ else _) => apply fail_stop_if
    | |- fail_stop _ (with_vars _) => apply fail_stop_with_vars; intros ?
    | |- fail_stop _ (match env_file ?e with _ => _ end) =>
        destruct (env_file e)
    end.

Lemma fail_stop_main args :
  fail_stop ok (main ok env_file version_now backup_now args).
Proof.
  unfold main, deploy, rollback, check_requirements, load_env,
    build_and_push, deploy_compose, run_migrations, run_health_checks,
    backup_database, send_notification.
  cbv zeta. fail_stop.
Qed.

(** *** The run against the run in which nothing fails *)

Lemma extends_skip : extends skip.
Proof. intros s. exists []. simpl. rewrite app_nil_r. reflexivity. Qed.

Lemma extends_exit1 : extends exit1.
Proof. intros s. exists []. simpl. rewrite app_nil_r. reflexivity. Qed.

Lemma extends_cmd o c : extends (cmd o c).
Proof.
  intros s. exists [c]. unfold cmd.
  destruct (o (length (ran s))); reflexivity.
Qed.

Lemma extends_check o c : extends (check o c).
Proof.
  intros s. exists [c]. unfold check.
  destruct (o (length (ran s))); reflexivity.
Qed.

Lemma extends_seq a b : extends a -> extends b -> extends (seq a b).
Proof.
  intros Ha Hb s. unfold seq. destruct (Ha s) as [l Hl].
  destruct (a s) as [s' [st | ]]; simpl in *.
  - exists l. exact Hl.
  - destruct (Hb s') as [l' Hl']. exists (l ++ l')%list.
    rewrite Hl', Hl, app_assoc. reflexivity.
Qed.

Lemma extends_with_vars k : (forall v, extends (k v)) -> extends (with_vars k).
Proof. intros Hk s. apply Hk. Qed.

Lemma extends_if (b : bool) m1 m2 :
  extends m1 -> extends m2 -> extends (if b then m1 else m2).
Proof. destruct b; auto. Qed.

Lemma extends_assign f : extends (assign f).
Proof. intros s. exists []. simpl. rewrite app_nil_r. reflexivity. Qed.

Lemma follows_refl m : follows m m.
Proof. intros s. left. reflexivity. Qed.

Lemma follows_cmd c : follows (cmd ok c) (cmd kind c).
Proof.
  intros s. unfold cmd, kind.
  destruct (ok (length (ran s))); [left; reflexivity | right].
  simpl. split; [intros H; discriminate H | ].
  exists []. rewrite app_nil_r. reflexivity.
Qed.

Lemma follows_check c : follows (check ok c) (check kind c).
Proof.
  intros s. unfold check, kind.
  destruct (ok (length (ran s))); [left; reflexivity | right].
  simpl. split; [intros H; discriminate H | ].
  exists []. rewrite app_nil_r. reflexivity.
Qed.

Lemma follows_seq a a' b b' :
  follows a a' -> follows b b' -> extends b' ->
  follows (seq a b) (seq a' b').
Proof.
  intros Ha Hb He s. unfold seq.
  destruct (Ha s) as [Heq | [Hend [l Hl]]].
  - rewrite Heq. destruct (a' s) as [s' [st | ]].
    + left. reflexivity.
    + apply Hb.
  - destruct (a s) as [s1 [st | ]]; simpl in *; [ | contradiction Hend; reflexivity].
    right. split; [intros H; discriminate H | ].
    destruct (a' s) as [s2 [st' | ]]; simpl in *.
    + exists l. exact Hl.
    + destruct (He s2) as [l' Hl']. exists (l ++ l')%list.
      rewrite Hl', Hl, app_assoc. reflexivity.
Qed.

Lemma follows_with_vars k k' :
  (forall v, follows (k v) (k' v)) -> follows (with_vars k) (with_vars k').
Proof. intros Hk s. apply Hk. Qed.

Lemma follows_if (b : bool) m1 m1' m2 m2' :
  follows m1 m1' -> follows m2 m2' ->
  follows (if b then m1 else m2) (if b then m1' else m2').
Proof. destruct b; auto. Qed.

Ltac extends :=
  repeat lazymatch goal with
    | |- extends (seq _ _) => apply extends_seq
    | |- extends (cmd _ _) => apply extends_cmd
    | |- extends (check _ _) => apply extends_check
    | |- extends skip => apply extends_skip
    | |- extends exit1 => apply extends_exit1
    | |- extends (assign _) => apply extends_assign
    | |- extends (if _ then _ else _) => apply extends_if
    | |- extends (with_vars _) => apply extends_with_vars; intros ?
    | |- extends (match env_file ?e with _ => _ end) => destruct (env_file e)
    end.

Ltac follows :=
  repeat lazymatch goal with
    | |- follows (seq _ _) _ => apply follows_seq
    | |- follows (cmd _ _) _ => apply follows_cmd
    | |- follows (check _ _) _ => apply follows_check
    | |- follows (if _ then _ else _) _ => apply follows_if
    | |- follows (with_vars _) _ => apply follows_with_vars; intros ?
    | |- follows (match env_file ?e with _ => _ end) _ =>
        destruct (env_file e)
    | |- follows _ _ => apply follows_refl
    | |- extends _ => progress extends
    end.

Lemma follows_main args :
  follows (main ok env_file version_now backup_now args)
          (main kind env_file version_now backup_now args).
Proof.
  unfold main, deploy, rollback, check_requirements, load_env,
    build_and_push, deploy_compose, run_migrations, run_health_checks,
    backup_database, send_notification.
  cbv zeta. follows.
Qed.

(** What a run has started is an initial part of what the run starts in
    which every command succeeds. *)
Lemma script_prefix v args :
  exists rest,
    fst (script kind env_file version_now backup_now v args)
    = (fst (script ok env_file version_now backup_now v args) ++ rest)%list.
Proof.
  unfold script.
  destruct (follows_main args {| vars := v; ran := [] |}) as [Heq | [_ [l Hl]]].
  - rewrite Heq. exists [].
    destruct (main kind env_file version_now backup_now args
                {| vars := v; ran := [] |}) as [s [st | ]];
      simpl; rewrite app_nil_r; reflexivity.
  - exists l.
    destruct (main kind env_file version_now backup_now args
                {| vars := v; ran := [] |}) as [s' [st' | ]];
    destruct (main ok env_file version_now backup_now args
                {| vars := v; ran := [] |}) as [s [st | ]];
    simpl in *; exact Hl.
Qed.

Lemma prefix_nth {A} (trace rest : list A) n c :
  nth_error trace n = Some c ->
  nth_error (trace ++ rest) n = Some c /\
  firstn n (trace ++ rest) = firstn n trace.
Proof.
  intros Hn.
  assert (Hlt : n < length trace) by (apply nth_error_Some; congruence).
  split.
  - rewrite nth_error_app1 by exact Hlt. exact Hn.
  - rewrite firstn_app.
    replace (n - length trace) with 0 by lia.
    simpl. apply app_nil_r.
Qed.

Lemma prefix_existsb {A} (p : A -> bool) (trace rest : list A) :
  existsb p (trace ++ rest) = false -> existsb p trace = false.
Proof.
  rewrite existsb_app. intros H. apply orb_false_elim in H. exact (proj1 H).
Qed.

Lemma guarded_nth p q l :
  forall before n c,
    guarded p q before l = true ->
    nth_error l n = Some c -> p c = true ->
    q (before ++ firstn n l)%list = true.
Proof.
  induction l as [ | x l IH]; intros before n c Hg Hn Hp.
  - destruct n; discriminate Hn.
  - simpl in Hg. apply andb_prop in Hg. destruct Hg as [Hx Hg].
    destruct n as [ | n]; simpl in *.
    + injection Hn as ->. rewrite Hp in Hx. rewrite app_nil_r. exact Hx.
    + replace (before ++ x :: firstn n l)%list
        with ((before ++ [x]) ++ firstn n l)%list
        by (rewrite <- app_assoc; reflexivity).
      apply (IH _ _ c); assumption.
Qed.

(** *** The run in which nothing fails, step by step *)

Lemma seq_seq a b m s : seq (seq a b) m s = seq a (seq b m) s.
Proof.
  unfold seq. destruct (a s) as [s1 [st | ]]; reflexivity.
Qed.

Lemma seq_cmd_kind c m s : seq (cmd kind c) m s = m (started c s).
Proof. reflexivity. Qed.

Lemma seq_check_kind c m s : seq (check kind c) m s = m (started c s).
Proof. reflexivity. Qed.

Lemma seq_cmd c m s :
  seq (cmd ok c) m s
  = if ok (length (ran s)) then m (started c s)
    else (started c s, Some (Died c)).
Proof. unfold seq, cmd. destruct (ok (length (ran s))); reflexivity. Qed.

Lemma seq_check c m s :
  seq (check ok c) m s
  = if ok (length (ran s)) then m (started c s)
    else (started c s, Some Exit1).
Proof. unfold seq, check. destruct (ok (length (ran s))); reflexivity. Qed.

Lemma seq_skip m s : seq skip m s = m s.
Proof. reflexivity. Qed.

Lemma seq_exit1 m s : seq exit1 m s = (s, Some Exit1).
Proof. reflexivity. Qed.

Lemma seq_assign f m s :
  seq (assign f) m s = m {| vars := f (vars s); ran := ran s |}.
Proof. reflexivity. Qed.

Lemma seq_with_vars k m s : seq (with_vars k) m s = seq (k (vars s)) m s.
Proof. reflexivity. Qed.

Lemma seq_skip_r m s : m s = seq m skip s.
Proof. unfold seq, skip. destruct (m s) as [s' [st | ]]; reflexivity. Qed.

(** A test whose value is known. *)
Ltac decided_if :=
  match goal with
  | |- context [if ?b then _ else _] =>
      let r := eval vm_compute in b in
      first [ constr_eq r true; change b with true; cbv iota
            | constr_eq r false; change b with false; cbv iota ]
  end.

(** A test whose value is not known: by cases, the innermost first. *)
Ltac test_if :=
  match goal with
  | |- context [if ?b then _ else _] =>
      lazymatch b with
      | context [if _ then _ else _] => fail
      | _ => destruct b eqn:?
      end
  end.

(** Every branch of the run in which nothing fails: the tests on the
    variables and on the arguments, and whether the environment file
    exists.  [known] rewrites with what is known of the file. *)
Ltac state :=
  cbn [vars ran started length app ENVIRONMENT REGISTRY REPOSITORY
       DEPLOY_TARGET SLACK_WEBHOOK_URL APP_VERSION GITHUB_REPOSITORY
       set_ENVIRONMENT configuration].

Ltac step known :=
  first
    [ lazymatch goal with
      | |- context [seq (seq _ _) _ _] => rewrite seq_seq
      | |- context [seq (cmd kind _) _ _] => rewrite seq_cmd_kind; state
      | |- context [seq (check kind _) _ _] => rewrite seq_check_kind; state
      | |- context [seq (cmd _ _) _ _] => rewrite seq_cmd; state
      | |- context [seq (check _ _) _ _] => rewrite seq_check; state
      | |- context [seq skip _ _] => rewrite seq_skip
      | |- context [seq exit1 _ _] => rewrite seq_exit1
      | |- context [seq (assign _) _ _] => rewrite seq_assign; state
      | |- context [seq (with_vars _) _ _] =>
          rewrite seq_with_vars; cbv beta zeta; state
      end
    | progress unfold deploy, rollback, check_requirements, build_and_push,
        deploy_compose, run_migrations, run_health_checks, backup_database,
        send_notification, load_env
    | decided_if
    | known; state
    | match goal with
      | |- context [match env_file ?e with _ => _ end] =>
          destruct (env_file e) eqn:?
      end
    | test_if ].

Ltac branches_with known :=
  unfold script, main, arg; cbn [nth]; cbv zeta;
  rewrite (seq_skip_r (seq _ _));
  repeat step known;
  unfold skip; cbn [fst snd vars ran started app length].

Ltac branches := branches_with fail.

Lemma script_stops_at_first_failure_aux v args :
  (forall i,
     S i < length (fst (script ok env_file version_now backup_now v args)) ->
     ok i = true) /\
  (snd (script ok env_file version_now backup_now v args) = Exit0 ->
   forall i,
     i < length (fst (script ok env_file version_now backup_now v args)) ->
     ok i = true) /\
  (forall c,
     snd (script ok env_file version_now backup_now v args) = Died c ->
     exists l,
       fst (script ok env_file version_now backup_now v args) = (l ++ [c])%list
       /\ ok (length l) = false).
Proof.
  unfold script.
  destruct (fail_stop_main args {| vars := v; ran := [] |}) as [H1 H2];
    [intros i Hi; inversion Hi | ].
  destruct (main ok env_file version_now backup_now args
              {| vars := v; ran := [] |}) as [s [st | ]]; simpl in *.
  - split; [exact H1 | split].
    + intros ->. exact H2.
    + intros c ->. exact H2.
  - split; [exact H1 | split].
    + intros _. exact H2.
    + intros c Hc. discriminate Hc.
Qed.

(** The script under [set -e] stops at the first command that fails.  All
    the commands it started but the last have succeeded; it exits with 0
    only if all of them have; when it dies, it dies of its last command;
    and what it started is an initial part of what it starts when nothing
    fails. *)
Theorem script_stops_at_first_failure v args :
  let trace := fst (script ok env_file version_now backup_now v args) in
  let status := snd (script ok env_file version_now backup_now v args) in
  (forall i, S i < length trace -> ok i = true) /\
  (status = Exit0 -> forall i, i < length trace -> ok i = true) /\
  (forall c, status = Died c ->
     exists l, trace = (l ++ [c])%list /\ ok (length l) = false) /\
  (exists rest,
     fst (script kind env_file version_now backup_now v args)
     = (trace ++ rest)%list).
Proof.
  cbv zeta.
  destruct (script_stops_at_first_failure_aux v args) as (H1 & H2 & H3).
  split; [exact H1 | split; [exact H2 | split; [exact H3 | ]]].
  apply script_prefix.
Qed.

(** A deploy to production dumps the database before it builds anything,
    as long as the environment file leaves [ENVIRONMENT] alone: whenever a
    build is started, a dump has been started before it (and has succeeded,
    the script being still alive).  A deploy to another environment starts
    no dump. *)
Theorem deploy_dumps_before_it_builds v environment rest :
  let trace :=
    fst (script ok env_file version_now backup_now v
           ("deploy" :: environment :: rest)) in
  (forall e set_vars u,
     env_file e = Some set_vars -> ENVIRONMENT (set_vars u) = ENVIRONMENT u) ->
  (environment = "production" ->
   forall n c,
     nth_error trace n = Some c -> is_build c = true ->
     existsb is_dump (firstn n trace) = true) /\
  (String.eqb environment "production" = false ->
   existsb is_dump trace = false).
Proof.
  cbv zeta. intros Hkeep.
  destruct (script_prefix v ("deploy" :: environment :: rest)) as [more Hplan].
  split.
  - intros -> n c Hn Hc.
    destruct (@prefix_nth _ _ more _ _ Hn) as [Hn' Hf]. rewrite <- Hf, <- Hplan.
    rewrite <- Hplan in Hn'. clear Hplan Hf Hn.
    apply (@guarded_nth is_build (existsb is_dump) _ [] n c);
      [ | exact Hn' | exact Hc].
    clear Hn'.
    branches_with
      ltac:(idtac; match goal with
            | Hf : env_file _ = Some ?f |- context [ENVIRONMENT (?f ?u)] =>
                rewrite (Hkeep _ _ u Hf)
            end);
      reflexivity.
  - intros Henv. apply (prefix_existsb _ _ more). rewrite <- Hplan.
    clear Hplan. revert Henv.
    branches_with
      ltac:(idtac; match goal with
            | Hf : env_file _ = Some ?f |- context [ENVIRONMENT (?f ?u)] =>
                rewrite (Hkeep _ _ u Hf)
            end);
      intros Henv; try reflexivity;
      repeat match goal with
             | E : ?b = _, H : context [if ?b then _ else _] |- _ =>
                 rewrite E in H
             end;
      try discriminate; congruence.
Qed.

(** The environment file has the last word on [ENVIRONMENT]: when
    [.env.production] sets it to another name, a deploy to production
    starts no dump, although it goes on to build, and it starts the
    services of the other name. *)
Theorem env_file_redirects_deploy v rest set_vars other :
  let trace :=
    fst (script ok env_file version_now backup_now v
           ("deploy" :: "production" :: rest)) in
  let plan :=
    fst (script kind env_file version_now backup_now v
           ("deploy" :: "production" :: rest)) in
  env_file "production" = Some set_vars ->
  (forall u, ENVIRONMENT (set_vars u) = other) ->
  String.eqb other "production" = false ->
  existsb is_dump trace = false /\
  existsb is_build plan = true /\
  In (ComposeUp (compose_file other)) plan.
Proof.
  cbv zeta. intros Hfile Hother Hne.
  destruct (script_prefix v ("deploy" :: "production" :: rest)) as [more Hplan].
  split; [apply (prefix_existsb _ _ more); rewrite <- Hplan | ];
    clear Hplan; revert Hne;
    branches_with
      ltac:(idtac; first [ rewrite Hfile | rewrite Hother ]);
    intros Hne; try congruence; try reflexivity;
    (split; [reflexivity | simpl; tauto]).
Qed.

(** A deploy posts its notification only when everything before went
    well: every command started before it has succeeded, the migrations
    are among them, and so are six health checks (three after the start of
    the services, three after the migrations). *)
Theorem deploy_notifies_after_checks v rest n c :
  let trace :=
    fst (script ok env_file version_now backup_now v ("deploy" :: rest)) in
  nth_error trace n = Some c ->
  is_notification c = true ->
  (forall i, i < n -> ok i = true) /\
  existsb is_migration (firstn n trace) = true /\
  Nat.eqb (length (filter is_health_check (firstn n trace))) 6 = true.
Proof.
  cbv zeta. intros Hn Hc. split.
  - intros i Hi.
    apply (proj1 (script_stops_at_first_failure_aux v ("deploy" :: rest))).
    assert (n < length
                  (fst (script ok env_file version_now backup_now v
                          ("deploy" :: rest))))
      by (apply nth_error_Some; congruence).
    lia.
  - destruct (script_prefix v ("deploy" :: rest)) as [more Hplan].
    destruct (@prefix_nth _ _ more _ _ Hn) as [Hn' Hf]. rewrite <- Hf, <- Hplan.
    rewrite <- Hplan in Hn'. clear Hplan Hf Hn.
    apply andb_prop.
    apply (@guarded_nth is_notification
             (fun l => existsb is_migration l
                       && Nat.eqb (length (filter is_health_check l)) 6)
             _ [] n c); [ | exact Hn' | exact Hc].
    clear Hn'. branches; reflexivity.
Qed.

(** Whether [kubectl] is looked for is decided by the [DEPLOY_TARGET] of
    the call, which is read before the environment file is loaded: with
    another target no command of the script looks for it, whatever the
    file sets; with the target [kubernetes] it is the third command of a
    deploy. *)
Theorem kubectl_probe_by_ambient_target v args :
  let trace := fst (script ok env_file version_now backup_now v args) in
  (String.eqb (DEPLOY_TARGET v) "kubernetes" = false ->
   existsb is_kubectl_check trace = false) /\
  (DEPLOY_TARGET v = "kubernetes" -> arg 0 "deploy" args = "deploy" ->
   forall c, nth_error trace 2 = Some c -> c = CommandV "kubectl").
Proof.
  cbv zeta. destruct (script_prefix v args) as [more Hplan]. split.
  - intros Htarget. apply (prefix_existsb _ _ more). rewrite <- Hplan.
    clear Hplan. revert Htarget.
    branches; intros Htarget; try reflexivity; discriminate Htarget.
  - intros Htarget Hcommand c Hc.
    destruct (@prefix_nth _ _ more _ _ Hc) as [Hc' _].
    rewrite <- Hplan in Hc'. clear Hplan Hc.
    revert Hc' Hcommand. unfold arg at 1. cbn [nth].
    branches_with ltac:(idtac; rewrite Htarget);
      intros Hc' Hcommand; try discriminate Hcommand;
      try (injection Hc' as <-; reflexivity);
      rewrite Hcommand in *; discriminate.
Qed.

(** A rollback reads no environment file and changes nothing of the
    release: it builds, pushes, migrates and dumps nothing, and a
    notification of it goes to the webhook of the call. *)
Theorem rollback_reads_no_environment_file v rest :
  let args := "rollback" :: rest in
  let trace := fst (script ok env_file version_now backup_now v args) in
  existsb is_export trace = false /\
  existsb changes_release trace = false /\
  forall c,
    In c trace -> is_notification c = true ->
    c = SlackPost (SLACK_WEBHOOK_URL v)
          ("[" ++ arg 1 "staging" args ++ "] ROLLBACK: Rollback completed").
Proof.
  cbv zeta.
  destruct (script_prefix v ("rollback" :: rest)) as [more Hplan].
  split; [ | split].
  - apply (prefix_existsb _ _ more). rewrite <- Hplan. clear Hplan.
    branches; reflexivity.
  - apply (prefix_existsb _ _ more). rewrite <- Hplan. clear Hplan.
    branches; reflexivity.
  - intros c Hin Hc.
    assert (Hin' : In c (fst (script kind env_file version_now backup_now v
                                ("rollback" :: rest)))).
    { rewrite Hplan. apply in_or_app. left. exact Hin. }
    clear Hplan Hin. revert Hin'. unfold arg at 1. cbn [nth].
    branches; simpl;
      intros Hin;
      repeat match goal with
             | H : _ \/ _ |- _ => destruct H as [H | H]
             end;
      try contradiction; subst c; try discriminate Hc; reflexivity.
Qed.

(** Without the file of the environment, a deploy, a health check and a
    backup end with status 1 and have started nothing but the look-ups of
    the tools. *)
Theorem missing_environment_file_stops_the_script v args :
  arg 0 "deploy" args <> "rollback" ->
  env_file (arg 1 "staging" args) = None ->
  snd (script ok env_file version_now backup_now v args) = Exit1 /\
  forallb is_probe (fst (script ok env_file version_now backup_now v args))
  = true.
Proof.
  unfold script, main, arg. cbn [nth]. cbv zeta.
  destruct (nth 0 args "" =? "") eqn:Hcommand0;
    destruct (nth 1 args "" =? "") eqn:Henvironment0;
    intros Hcommand Hfile;
    destruct (nth 0 args "" =? "rollback") eqn:Hrollback;
    try (apply String.eqb_eq in Hrollback; contradiction);
    branches_with ltac:(idtac; rewrite Hfile);
    split; reflexivity.
Qed.

End DeployScript.

(** *** The properties of the script at concrete calls *)

Lemma script_stops_at_first_failure_witness :
  exists l,
    fst (Deploy.script (Deploy.fails_at 5) Deploy.project_files
           "20240101-120000" "20240101-115900" Deploy.bare
           ["deploy"; "production"])
    = (l ++ [Deploy.DockerBuild
               "ghcr.io/job-agent-system:20240101-120000-backend"
               "./backend"])%list
    /\ Deploy.fails_at 5 (length l) = false.
Proof.
  pose proof (@script_stops_at_first_failure (Deploy.fails_at 5)
                Deploy.project_files "20240101-120000" "20240101-115900"
                Deploy.bare ["deploy"; "production"]) as H.
  cbv zeta in H. destruct H as (_ & _ & H & _).
  exact (H _ eq_refl).
Defined.

Lemma deploy_dumps_before_it_builds_witness :
  existsb Deploy.is_dump
    (firstn 5
       (fst (Deploy.script Deploy.kind Deploy.project_files
               "20240101-120000" "20240101-115900" Deploy.bare
               ["deploy"; "production"])))
  = true.
Proof.
  assert (Hkeep : forall e set_vars u,
             Deploy.project_files e = Some set_vars ->
             Deploy.ENVIRONMENT (set_vars u) = Deploy.ENVIRONMENT u).
  { intros e set_vars u. unfold Deploy.project_files.
    destruct (e =? "production");
      [intros H; injection H as <-; reflexivity | ].
    destruct (e =? "staging");
      [intros H; injection H as <-; reflexivity | ].
    intros H. discriminate H. }
  pose proof (@deploy_dumps_before_it_builds Deploy.kind
                Deploy.project_files "20240101-120000" "20240101-115900" Deploy.bare
                "production" [] Hkeep) as H.
  cbv zeta in H. destruct H as [H _].
  exact (H eq_refl 5 _ eq_refl eq_refl).
Defined.

Lemma env_file_redirects_deploy_witness :
  existsb Deploy.is_dump
    (fst (Deploy.script Deploy.kind Deploy.copied_files
            "20240101-120000" "20240101-115900" Deploy.bare
            ["deploy"; "production"]))
  = false /\
  existsb Deploy.is_build
    (fst (Deploy.script Deploy.kind Deploy.copied_files
            "20240101-120000" "20240101-115900" Deploy.bare
            ["deploy"; "production"]))
  = true /\
  In (Deploy.ComposeUp (Deploy.compose_file "staging"))
    (fst (Deploy.script Deploy.kind Deploy.copied_files
            "20240101-120000" "20240101-115900" Deploy.bare
            ["deploy"; "production"])).
Proof.
  apply (@env_file_redirects_deploy Deploy.kind Deploy.copied_files
           "20240101-120000" "20240101-115900" Deploy.bare []
           (Deploy.set_ENVIRONMENT "staging") "staging");
    [reflexivity | intros u; reflexivity | reflexivity].
Defined.

Lemma deploy_notifies_after_checks_witness :
  (forall i, i < 22 -> Deploy.kind i = true) /\
  existsb Deploy.is_migration
    (firstn 22
       (fst (Deploy.script Deploy.kind Deploy.project_files
               "20240101-120000" "20240101-115900" Deploy.bare
               ["deploy"; "production"])))
  = true /\
  Nat.eqb
    (length
       (filter Deploy.is_health_check
          (firstn 22
             (fst (Deploy.script Deploy.kind Deploy.project_files
                     "20240101-120000" "20240101-115900" Deploy.bare
                     ["deploy"; "production"])))))
    6
  = true.
Proof.
  pose proof (@deploy_notifies_after_checks Deploy.kind Deploy.project_files
                "20240101-120000" "20240101-115900" Deploy.bare
                ["production"] 22) as H.
  cbv zeta in H. exact (H _ eq_refl eq_refl).
Defined.

Lemma kubectl_probe_by_ambient_target_witness :
  existsb Deploy.is_kubectl_check
    (fst (Deploy.script Deploy.kind Deploy.project_files
            "20240101-120000" "20240101-115900" Deploy.bare
            ["deploy"; "staging"]))
  = false /\
  nth_error
    (fst (Deploy.script Deploy.kind Deploy.project_files
            "20240101-120000" "20240101-115900" Deploy.on_kubernetes
            ["deploy"; "staging"])) 2
  = Some (Deploy.CommandV "kubectl").
Proof.
  split.
  - exact (proj1 (@kubectl_probe_by_ambient_target Deploy.kind
                    Deploy.project_files "20240101-120000" "20240101-115900"
                    Deploy.bare ["deploy"; "staging"]) eq_refl).
  - destruct (nth_error
                (fst (Deploy.script Deploy.kind Deploy.project_files
                        "20240101-120000" "20240101-115900"
                        Deploy.on_kubernetes ["deploy"; "staging"])) 2)
      as [c | ] eqn:Hc; [ | discriminate Hc].
    rewrite (proj2 (@kubectl_probe_by_ambient_target Deploy.kind
                      Deploy.project_files "20240101-120000"
                      "20240101-115900" Deploy.on_kubernetes
                      ["deploy"; "staging"]) eq_refl eq_refl c Hc).
    reflexivity.
Defined.

Lemma rollback_reads_no_environment_file_witness :
  existsb Deploy.is_export
    (fst (Deploy.script Deploy.kind Deploy.project_files
            "20240101-120000" "20240101-115900"
            (Deploy.set_SLACK_WEBHOOK_URL "https://hooks.slack.com/services/T1"
               Deploy.bare)
            ["rollback"; "production"]))
  = false /\
  existsb Deploy.changes_release
    (fst (Deploy.script Deploy.kind Deploy.project_files
            "20240101-120000" "20240101-115900"
            (Deploy.set_SLACK_WEBHOOK_URL "https://hooks.slack.com/services/T1"
               Deploy.bare)
            ["rollback"; "production"]))
  = false /\
  Deploy.SlackPost "https://hooks.slack.com/services/T1"
    "[production] ROLLBACK: Rollback completed"
  = Deploy.SlackPost "https://hooks.slack.com/services/T1"
      ("[" ++ Deploy.arg 1 "staging" ["rollback"; "production"]
           ++ "] ROLLBACK: Rollback completed").
Proof.
  pose proof (@rollback_reads_no_environment_file Deploy.kind
                Deploy.project_files "20240101-120000" "20240101-115900"
                (Deploy.set_SLACK_WEBHOOK_URL
                   "https://hooks.slack.com/services/T1" Deploy.bare)
                ["production"]) as H.
  cbv zeta in H. destruct H as (H1 & H2 & H3).
  split; [exact H1 | split; [exact H2 | ]].
  apply H3; [ | reflexivity].
  vm_compute. tauto.
Defined.

Lemma missing_environment_file_stops_the_script_witness :
  snd (Deploy.script Deploy.kind Deploy.project_files
         "20240101-120000" "20240101-115900" Deploy.bare
         ["deploy"; "review"])
  = Deploy.Exit1 /\
  forallb Deploy.is_probe
    (fst (Deploy.script Deploy.kind Deploy.project_files
            "20240101-120000" "20240101-115900" Deploy.bare
            ["deploy"; "review"]))
  = true.
Proof.
  apply (@missing_environment_file_stops_the_script Deploy.kind
           Deploy.project_files "20240101-120000" "20240101-115900"
           Deploy.bare ["deploy"; "review"]);
    [intros H; discriminate H | reflexivity].
Defined.
